(** * Wishlist savings planner: allocation engine and wishlist ledger

    A shallow embedding of the computational core of [streamlit_app.py]:
    [new_item_id], [calculate_usable], [monthly_need_for_item],
    [allocate_to_wishlist] and the three handlers that mutate the state
    (add item, apply the monthly allocation, manual deposit).

    Python integers are unbounded, so they are [Z].  The one place where the
    program leaves the integers is the true division [/] of
    [monthly_need_for_item], whose quotient is an IEEE 754 binary64 number
    that [int] then truncates; that division is modelled bit-exactly below. *)

From stdpp Require Import base numbers list sorting strings pretty gmap.
From Stdlib Require Import Ascii.

Local Open Scope Z_scope.

(** ** Exceptions

    The functions of the core raise nothing themselves; the only exceptions
    that can escape them are those of the integer true division. *)

Inductive exn : Type :=
| ZeroDivisionError
| OverflowError.

Inductive result (A : Type) : Type :=
| Ok (a : A)
| Raise (e : exn).

Arguments Ok {A} a.
Arguments Raise {A} e.

Definition bind {A B : Type} (r : result A) (k : A -> result B) : result B :=
  match r with
  | Ok a => k a
  | Raise e => Raise e
  end.

Notation "x <- r ;; k" := (bind r (fun x => k))
  (at level 100, r at next level, right associativity).

Definition is_ok {A : Type} (r : result A) : bool :=
  match r with Ok _ => true | Raise _ => false end.

(** ** Python's [int / int]

    CPython computes the quotient of two integers as the binary64 number
    nearest to the exact rational quotient, ties going to the even
    significand, whatever the size of the operands; it raises
    [OverflowError] when that number would be [2^1024] or more, and
    [ZeroDivisionError] on a zero divisor.  A finite binary64 number is kept
    here as sign, significand and exponent: its value is
    [(-1)^fneg * fman * 2^fexp]. *)

Module Float.

Record float : Type := mkfloat { fneg : bool; fman : Z; fexp : Z }.

(** Nearest integer to [p / q], ties to even ([0 <= p], [0 < q]). *)
Definition rne (p q : Z) : Z :=
  let quo := p / q in
  let r := p mod q in
  if 2 * r <? q then quo
  else if q <? 2 * r then quo + 1
  else if Z.even quo then quo else quo + 1.

(** [pow2_le d k n] decides [d * 2^k <= n] for an exponent [k] of any sign. *)
Definition pow2_le (d k n : Z) : bool :=
  d * 2 ^ Z.max 0 k <=? n * 2 ^ Z.max 0 (- k).

(** [floor (log2 (n / d))] for positive [n] and [d]. *)
Definition log2_quot (n d : Z) : Z :=
  let k := Z.log2 n - Z.log2 d in
  if pow2_le d k n then k else k - 1.

(** Exponent of the unit in the last place of the quotient: 53 significant
    bits, and never below the exponent [-1074] of the subnormal numbers. *)
Definition quot_exponent (n d : Z) : Z :=
  Z.max (log2_quot n d - 52) (-1074).

Definition true_divide (a b : Z) : result float :=
  if b =? 0 then Raise ZeroDivisionError
  else if a =? 0 then Ok (mkfloat (b <? 0) 0 0)
  else
    let n := Z.abs a in
    let d := Z.abs b in
    let e := quot_exponent n d in
    let m := rne (n * 2 ^ Z.max 0 (- e)) (d * 2 ^ Z.max 0 e) in
    if (0 <=? e) && (2 ^ 1024 <=? m * 2 ^ e) then Raise OverflowError
    else Ok (mkfloat (xorb (a <? 0) (b <? 0)) m e).

(** [int(x)]: the integer part, rounding toward zero. *)
Definition to_int (x : float) : Z :=
  let v := if 0 <=? fexp x then fman x * 2 ^ fexp x
           else fman x / 2 ^ (- fexp x) in
  if fneg x then - v else v.

End Float.

(** ** Data model

    The state is the JSON document of [load_data].  A key that the program
    reads with a subscript ([it["id"]], [it["name"]], [it["target"]],
    [profile["income"]], ...) is a field that is always there; a key that it
    reads with [.get(key, default)] may be missing and is an [option].  Every
    item built by the add-item handler has all of its keys.  The values are
    integers, on which the conversions [int(...)] of the handlers do
    nothing.  The three [*_pct] keys of the default profile are never read
    and are left out. *)

Record Profile : Type := mkProfile {
  income : Z;
  fixed_expenses : Z;
  saving_invest : Z;
  emergency : Z
}.

Record WishlistItem : Type := mkItem {
  id : Z;
  name : string;
  target : Z;
  months : option Z;
  current : option Z;
  priority : option Z;
  created : string
}.

(** One entry of the list returned by [allocate_to_wishlist]:
    [{"id": .., "name": .., "assigned": .., "need": ..}]. *)
Record Allocation : Type := mkAlloc {
  alloc_id : Z;
  alloc_name : string;
  assigned : Z;
  need : Z
}.

Inductive Transaction : Type :=
| monthly_alloc (ts : string) (alloc : list Allocation)
| manual_deposit (ts : string) (amount : Z) (item_id : Z) (memo : string).

Record AppState : Type := mkState {
  profile : Profile;
  wishlist : list WishlistItem;
  transactions : list Transaction
}.

(** The default structure of [load_data], returned when no file exists. *)
Definition default_data : AppState :=
  mkState (mkProfile 0 0 0 0) [] [].

(** [it["current"] = v], the other keys unchanged. *)
Definition set_current (it : WishlistItem) (v : Z) : WishlistItem :=
  mkItem (id it) (name it) (target it) (months it) (Some v)
         (priority it) (created it).

(** [it.get("current", 0)] *)
Definition get_current (it : WishlistItem) : Z := default 0 (current it).

(** ** Helpers *)

(** [max(existing)] on a non-empty list, given as head and tail. *)
Definition py_max (x : Z) (l : list Z) : Z := foldl Z.max x l.

Definition new_item_id (data : AppState) : Z :=
  let existing := map id (wishlist data) in
  match existing with
  | [] => 1
  | x :: l => py_max x l + 1
  end.

(** ** Core calculations *)

Definition calculate_usable (p : Profile) : Z :=
  let usable := income p - (fixed_expenses p + saving_invest p + emergency p) in
  Z.max 0 usable.

(** [item.get("months", 1) or 1]: a missing key gives 1, and so does the
    falsy value 0. *)
Definition months_or_1 (it : WishlistItem) : Z :=
  match months it with
  | Some m => if m =? 0 then 1 else m
  | None => 1
  end.

Definition monthly_need_for_item (it : WishlistItem) : result Z :=
  let months := months_or_1 it in
  need <- Float.true_divide (target it - get_current it) months ;;
  Ok (Z.max 0 (Float.to_int need)).

(** [sorted(l, key=key)]: Python's sort is stable and ascending.  Insertion
    from the right, each element going in front of the first element whose
    key is not smaller, is a stable sort, and a stable sort has only one
    possible result ([stable_sorted_unique] below). *)
Section Sorted.
Context {A : Type} (key : A -> Z).

Fixpoint insert_by (x : A) (l : list A) : list A :=
  match l with
  | [] => [x]
  | y :: l' => if key x <=? key y then x :: y :: l' else y :: insert_by x l'
  end.

Fixpoint sorted (l : list A) : list A :=
  match l with
  | [] => []
  | x :: l' => insert_by x (sorted l')
  end.
End Sorted.

(** [lambda x: x.get("priority", 999)] *)
Definition priority_key (it : WishlistItem) : Z := default 999 (priority it).

(** The [for] loop of [allocate_to_wishlist], with its two variables [alloc]
    and [remaining] passed along; [break] ends the recursion. *)
Fixpoint alloc_loop (items : list WishlistItem) (alloc : list Allocation)
    (remaining : Z) : result (list Allocation * Z) :=
  match items with
  | [] => Ok (alloc, remaining)
  | it :: rest =>
      need <- monthly_need_for_item it ;;
      let assigned := Z.min need remaining in
      let alloc := alloc ++ [mkAlloc (id it) (name it) assigned need] in
      let remaining := remaining - assigned in
      if remaining <=? 0 then Ok (alloc, remaining)
      else alloc_loop rest alloc remaining
  end.

Definition allocate_to_wishlist (usable : Z) (wishlist : list WishlistItem)
    : result (list Allocation * Z) :=
  let sorted_items := sorted priority_key wishlist in
  alloc_loop sorted_items [] usable.

(** ** Handlers

    Each handler is the body that runs when its button is pressed; the time
    stamp [datetime.now().isoformat()] is an argument. *)

(** Save profile: [profile.update({...})]. *)
Definition save_profile (income fixed_expenses saving_invest emergency : Z)
    (data : AppState) : AppState :=
  mkState (mkProfile income fixed_expenses saving_invest emergency)
          (wishlist data) (transactions data).

(** Add item. *)
Definition add_item (name : string) (target months priority : Z) (now : string)
    (data : AppState) : AppState :=
  let new_id := new_item_id data in
  let item := mkItem new_id name target (Some months) (Some 0)
                     (Some priority) now in
  mkState (profile data) (wishlist data ++ [item]) (transactions data).

(** [{a["id"]: a["assigned"] for a in alloc}]: a later entry with the same
    id replaces an earlier one. *)
Definition id_to_assigned (alloc : list Allocation) : gmap Z Z :=
  foldl (fun m a => <[alloc_id a := assigned a]> m) ∅ alloc.

(** Body of the loop over the wishlist in the apply handler. *)
Definition apply_to_item (m : gmap Z Z) (it : WishlistItem) : WishlistItem :=
  let add_amt := default 0 (m !! id it) in
  if 0 <? add_amt then set_current it (get_current it + add_amt) else it.

(** Apply the monthly allocation. *)
Definition apply_monthly_allocation (now : string) (alloc : list Allocation)
    (data : AppState) : AppState :=
  let m := id_to_assigned alloc in
  mkState (profile data)
          (map (apply_to_item m) (wishlist data))
          (transactions data ++ [monthly_alloc now alloc]).

(** The apply button is only offered for a non-empty allocation
    ([if alloc:]); [clicked] is the value of [st.button]. *)
Definition apply_handler (clicked : bool) (now : string)
    (alloc : list Allocation) (data : AppState) : AppState :=
  match alloc with
  | [] => data
  | _ :: _ => if clicked then apply_monthly_allocation now alloc data else data
  end.

(** The loop of the deposit handler: the first item with the id gets the
    amount, then [break]. *)
Fixpoint deposit_loop (target_id amount : Z) (wl : list WishlistItem)
    : list WishlistItem :=
  match wl with
  | [] => []
  | it :: rest =>
      if id it =? target_id
      then set_current it (get_current it + amount) :: rest
      else it :: deposit_loop target_id amount rest
  end.

(** Manual deposit. *)
Definition record_manual_deposit (now : string) (target_id amount : Z)
    (memo : string) (data : AppState) : AppState :=
  mkState (profile data)
          (deposit_loop target_id amount (wishlist data))
          (transactions data ++ [manual_deposit now amount target_id memo]).

(** ** The session as a transition system

    One user action is one step on the state.  The allocation that the apply
    button commits is the one on screen; it is an argument here, so that the
    results below hold for any allocation list. *)

Inductive action : Type :=
| SaveProfile (income fixed_expenses saving_invest emergency : Z)
| AddItem (name : string) (target months priority : Z) (now : string)
| ApplyAllocation (clicked : bool) (now : string) (alloc : list Allocation)
| ManualDeposit (now : string) (target_id amount : Z) (memo : string).

Definition step (a : action) (data : AppState) : AppState :=
  match a with
  | SaveProfile i f s e => save_profile i f s e data
  | AddItem n t m p now => add_item n t m p now data
  | ApplyAllocation c now alloc => apply_handler c now alloc data
  | ManualDeposit now tid amt memo => record_manual_deposit now tid amt memo data
  end.

Definition run (acts : list action) (data : AppState) : AppState :=
  foldl (fun d a => step a d) data acts.

(** Ids are pairwise distinct along the wishlist. *)
Definition unique_ids (data : AppState) : Prop :=
  NoDup (map id (wishlist data)).

(** ** Vocabulary of the statements *)

(** What one pass of the apply loop adds to the [current] of an item. *)
Definition applied_amount (m : gmap Z Z) (it : WishlistItem) : Z :=
  Z.max 0 (default 0 (m !! id it)).

Definition sum_Z (l : list Z) : Z := foldr Z.add 0 l.

(** The order that [sorted] establishes. *)
Definition key_le {A : Type} (key : A -> Z) (x y : A) : Prop :=
  key x <= key y.

(** The division in [monthly_need_for_item] does not raise. *)
Definition need_defined (it : WishlistItem) : Prop :=
  is_ok (monthly_need_for_item it) = true.

(** The record that the loop appends for an item. *)
Definition record_of (it : WishlistItem) (assigned need : Z) : Allocation :=
  mkAlloc (id it) (name it) assigned need.

(** The loop as a relation: [loop_trace items remaining alloc remaining']
    holds when the loop, entered on [items] with budget [remaining],
    appends the records [alloc] and leaves with budget [remaining'].  One
    constructor per way through the body: list exhausted, [break], next
    iteration. *)
Inductive loop_trace :
    list WishlistItem -> Z -> list Allocation -> Z -> Prop :=
| trace_end (remaining : Z) :
    loop_trace [] remaining [] remaining
| trace_break (it : WishlistItem) (rest : list WishlistItem)
    (remaining need : Z) :
    monthly_need_for_item it = Ok need ->
    remaining - Z.min need remaining <= 0 ->
    loop_trace (it :: rest) remaining
               [record_of it (Z.min need remaining) need]
               (remaining - Z.min need remaining)
| trace_next (it : WishlistItem) (rest : list WishlistItem)
    (remaining need : Z) (alloc : list Allocation) (remaining' : Z) :
    monthly_need_for_item it = Ok need ->
    0 < remaining - Z.min need remaining ->
    loop_trace rest (remaining - Z.min need remaining) alloc remaining' ->
    loop_trace (it :: rest) remaining
               (record_of it (Z.min need remaining) need :: alloc)
               remaining'.

(** The budget bookkeeping read off the records alone: each [assigned] is
    the smaller of [need] and the budget left at that point, and the budget
    goes down by [assigned]. *)
Inductive budget_trace : Z -> list Allocation -> Z -> Prop :=
| budget_end (remaining : Z) :
    budget_trace remaining [] remaining
| budget_step (remaining : Z) (a : Allocation) (alloc : list Allocation)
    (remaining' : Z) :
    assigned a = Z.min (need a) remaining ->
    budget_trace (remaining - assigned a) alloc remaining' ->
    budget_trace remaining (a :: alloc) remaining'.

(** ** Sections of the page

    The script runs top to bottom on every interaction.  The definitions
    below are single sections of it that compute on the state; each stands
    for its own lines only.  What the script does before a section (the
    widgets, and the wishlist table of lines 145 to 149, which selects seven
    columns and raises [KeyError] when no item has one of them) is not part
    of it: a result [Ok] says that the section raises nothing once the run
    has reached it, not that the whole run returns. *)

(** The allocation preview: [usable = calculate_usable(profile)], then
    [alloc, rem_after_alloc = allocate_to_wishlist(usable, data["wishlist"])]. *)
Definition preview (data : AppState) : result (list Allocation * Z) :=
  let usable := calculate_usable (profile data) in
  allocate_to_wishlist usable (wishlist data).

(** The preview followed by the apply section, lines 156 and 169 to 183:
    the allocation applied is the one the preview of the same run
    computed. *)
Definition apply_page (clicked : bool) (now : string) (data : AppState)
    : result AppState :=
  res <- preview data ;;
  Ok (apply_handler clicked now res.1 data).

(** The select box of the deposit form shows one label per item,
    [f"{it['id']}: {it['name']}"], and [choices] maps a label back to an
    id; of two items with the same label the later one stays. *)
Definition label (it : WishlistItem) : string :=
  pretty (id it) +:+ ": " +:+ name it.

Definition choices (wl : list WishlistItem) : gmap string Z :=
  foldl (fun m it => <[label it := id it]> m) ∅ wl.

(** The transaction table: the rows [[-20:][::-1]] of the log, that is the
    last twenty, newest first. *)
Definition recent_transactions (data : AppState) : list Transaction :=
  let txs := transactions data in
  reverse (drop (length txs - 20) txs).

(** What the input widgets let through: [min_value=0] on the amounts of the
    profile, on the target and on the deposit, [min_value=1] on the months,
    and a priority picked among 1 to 5. *)
Definition ui_valid (a : action) : Prop :=
  match a with
  | SaveProfile i f s e => 0 <= i /\ 0 <= f /\ 0 <= s /\ 0 <= e
  | AddItem _ t m p _ => 0 <= t /\ 1 <= m /\ 1 <= p <= 5
  | ApplyAllocation _ _ _ => True
  | ManualDeposit _ _ amt _ => 0 <= amt
  end.

(** The shape of an item that the add form builds and the handlers keep. *)
Definition well_formed_item (it : WishlistItem) : Prop :=
  0 < id it /\ 0 <= target it /\
  (exists m, months it = Some m /\ 1 <= m) /\
  (exists c, current it = Some c /\ 0 <= c) /\
  (exists p, priority it = Some p /\ 1 <= p <= 5).

Definition well_formed (data : AppState) : Prop :=
  0 <= income (profile data) /\ 0 <= fixed_expenses (profile data) /\
  0 <= saving_invest (profile data) /\ 0 <= emergency (profile data) /\
  Forall well_formed_item (wishlist data) /\
  unique_ids data.

(** The keys of an item that no handler writes. *)
Definition static (it : WishlistItem)
    : Z * string * Z * option Z * option Z * string :=
  (id it, name it, target it, months it, priority it, created it).

(** The money saved so far over the whole wishlist. *)
Definition total_saved (data : AppState) : Z :=
  sum_Z (map get_current (wishlist data)).

(** The progress report, for an item that is not yet at its target:
    [(target - current) / (monthly_need_for_item(it) or 1)]. *)
Definition est_months_remaining (it : WishlistItem) : result Float.float :=
  need <- monthly_need_for_item it ;;
  Float.true_divide (target it - get_current it)
                    (if need =? 0 then 1 else need).

(** [kept wl wl']: the items of [wl] are still there in [wl'], in the same
    places and with the same static keys, none with a smaller [current];
    [wl'] may have more items at its end. *)
Definition kept (wl wl' : list WishlistItem) : Prop :=
  exists wl1 ext,
    wl' = wl1 ++ ext /\
    Forall2 (fun it it' => static it' = static it /\
                           get_current it <= get_current it') wl wl1.

(** A string without the character [:]. *)
Fixpoint colon_free (s : string) : bool :=
  match s with
  | EmptyString => true
  | String c s' => negb (Ascii.eqb c ":"%char) && colon_free s'
  end.

(** * Results *)

(** ** [calculate_usable] *)

(** C3. [calculate_usable] is income minus the three commitments when that is
    not negative and 0 otherwise, hence never negative; on the profile with
    income 2000000 and commitments 500000, 550000 and 60000 it is 890000. *)
Theorem calculate_usable_clamped (p : Profile) :
  let commitments := fixed_expenses p + saving_invest p + emergency p in
  (commitments <= income p -> calculate_usable p = income p - commitments) /\
  (income p < commitments -> calculate_usable p = 0) /\
  0 <= calculate_usable p /\
  calculate_usable (mkProfile 2000000 500000 550000 60000) = 890000.
Proof.
  unfold calculate_usable; cbn zeta.
  repeat split; try lia.
Qed.

Lemma calculate_usable_clamped_witness :
  let p := mkProfile 900 300 50 20 in
  let p' := mkProfile 100 300 50 20 in
  fixed_expenses p + saving_invest p + emergency p <= income p /\
  calculate_usable p = 530 /\
  income p' < fixed_expenses p' + saving_invest p' + emergency p' /\
  calculate_usable p' = 0.
Proof.
  cbn zeta.
  assert (H1 : fixed_expenses (mkProfile 900 300 50 20)
               + saving_invest (mkProfile 900 300 50 20)
               + emergency (mkProfile 900 300 50 20)
               <= income (mkProfile 900 300 50 20)) by (cbn; lia).
  assert (H2 : income (mkProfile 100 300 50 20)
               < fixed_expenses (mkProfile 100 300 50 20)
                 + saving_invest (mkProfile 100 300 50 20)
                 + emergency (mkProfile 100 300 50 20)) by (cbn; lia).
  split; [exact H1|]. split.
  - exact (proj1 (calculate_usable_clamped (mkProfile 900 300 50 20)) H1).
  - split; [exact H2|].
    exact (proj1 (proj2 (calculate_usable_clamped (mkProfile 100 300 50 20)))
                 H2).
Defined.

(** ** The division of [monthly_need_for_item] *)

Module FloatFacts.
Import Float.

(** The model on a few quotients: [1/3] is [0x1.5555555555555p-2]; the
    odd integer [2^53 + 1] is not a float and goes to [2^53]; the largest
    quotient that does not overflow is just below [2^1024 - 2^970]; half of
    the smallest subnormal goes to 0. *)
Example true_divide_third :
  true_divide 1 3 = Ok (mkfloat false 6004799503160661 (-54)).
Proof. vm_compute. reflexivity. Qed.

Example true_divide_2_53_plus_1 :
  true_divide (2 ^ 53 + 1) 1 = Ok (mkfloat false (2 ^ 52) 1).
Proof. vm_compute. reflexivity. Qed.

Example true_divide_overflow :
  true_divide (2 ^ 1024 - 2 ^ 970) 1 = Raise OverflowError /\
  is_ok (true_divide (2 ^ 1024 - 2 ^ 970 - 1) (-1)) = true.
Proof. split; vm_compute; reflexivity. Qed.

Example true_divide_underflow :
  true_divide 1 (2 ^ 1075) = Ok (mkfloat false 0 (-1074)) /\
  true_divide 3 (2 ^ 1075) = Ok (mkfloat false 2 (-1074)).
Proof. split; vm_compute; reflexivity. Qed.

Example true_divide_zero : true_divide 5 0 = Raise ZeroDivisionError.
Proof. reflexivity. Qed.

Lemma rne_cases (p q : Z) :
  0 < q ->
  rne p q = p / q \/ (rne p q = p / q + 1 /\ q <= 2 * (p mod q)).
Proof.
  intros Hq. unfold rne.
  destruct (Z.ltb_spec (2 * (p mod q)) q) as [Hlt|Hge]; [by left|].
  destruct (Z.ltb_spec q (2 * (p mod q))) as [Hgt|Hle].
  - right. split; [done | lia].
  - destruct (Z.even (p / q)); [by left | right; split; [done | lia]].
Qed.

Lemma rne_nonneg (p q : Z) : 0 <= p -> 0 < q -> 0 <= rne p q.
Proof.
  intros Hp Hq. pose proof (Z.div_pos p q Hp Hq).
  destruct (rne_cases p q Hq) as [->|[-> _]]; lia.
Qed.

(** Rounding a quotient scaled by [P] and then dropping the scale gives
    the integer quotient, as long as a unit of the quotient is more than
    half a unit in the last place ([d < 2 * P]). *)
Lemma rne_scaled_trunc (n d P : Z) :
  0 <= n -> 0 < d -> 0 < P -> d < 2 * P ->
  rne (n * P) d / P = n / d.
Proof.
  intros Hn Hd HP HdP.
  pose proof (Z.div_mod n d ltac:(lia)) as Hnd.
  pose proof (Z.mod_pos_bound n d Hd) as HR.
  pose proof (Z.div_mod (n * P) d ltac:(lia)) as Hpd.
  pose proof (Z.mod_pos_bound (n * P) d Hd) as Hr1.
  pose proof (rne_cases (n * P) d Hd) as Hc.
  set (m := rne (n * P) d) in *.
  set (Q := n / d) in *. set (R := n mod d) in *.
  set (q1 := n * P / d) in *. set (r1 := (n * P) mod d) in *.
  assert (Hp : d * q1 + r1 = d * (Q * P) + R * P) by nia.
  assert (Hlo : Q * P <= q1) by nia.
  assert (Hhi : q1 <= Q * P + P - 1) by nia.
  assert (Hm : Q * P <= m < (Q + 1) * P).
  { destruct Hc as [->|[-> Hup]]; [nia|].
    split; [nia|].
    destruct (Z.eq_dec q1 (Q * P + P - 1)) as [Heq|Hne]; [|nia].
    exfalso. nia. }
  symmetry. apply (Z.div_unique_pos _ P Q (m - Q * P)); nia.
Qed.

(** Below one unit in the last place, the rounded quotient is 0 once the
    scale is dropped. *)
Lemma rne_scaled_small (n d P : Z) :
  0 <= n -> 0 < d -> 0 < P -> n * P / d + 1 < P ->
  rne (n * P) d / P = 0.
Proof.
  intros Hn Hd HP Hsmall.
  assert (Hp : 0 <= n * P) by nia.
  pose proof (Z.div_pos (n * P) d Hp Hd) as Hq1.
  pose proof (rne_cases (n * P) d Hd) as Hc.
  apply Z.div_small.
  set (q1 := n * P / d) in *.
  destruct Hc as [->|[-> _]]; lia.
Qed.

Lemma log2_quot_le (n d : Z) : 0 < n -> 0 < d -> log2_quot n d <= Z.log2 n.
Proof.
  intros Hn Hd. unfold log2_quot.
  pose proof (Z.log2_nonneg d).
  destruct (pow2_le d _ n); lia.
Qed.

(** [2 ^ log2_quot n d] is at most [n / d]. *)
Lemma log2_quot_lower (n d : Z) :
  0 < n -> 0 < d -> pow2_le d (log2_quot n d) n = true.
Proof.
  intros Hn Hd. unfold log2_quot.
  destruct (pow2_le d (Z.log2 n - Z.log2 d) n) eqn:Hk; [done|].
  clear Hk. unfold pow2_le. apply Z.leb_le.
  pose proof (Z.log2_spec n Hn) as [Hn1 _].
  pose proof (Z.log2_spec d Hd) as [_ Hd2].
  pose proof (Z.log2_nonneg n) as Ha. pose proof (Z.log2_nonneg d) as Hb.
  set (a := Z.log2 n) in *. set (b := Z.log2 d) in *.
  destruct (Z.le_gt_cases 1 (a - b)) as [Hge|Hlt].
  - rewrite (Z.max_r 0 (a - b - 1)), (Z.max_l 0 (- (a - b - 1))) by lia.
    rewrite Z.pow_0_r, Z.mul_1_r.
    assert (Hpow : 2 ^ a = 2 ^ Z.succ b * 2 ^ (a - b - 1)).
    { rewrite <- Z.pow_add_r by lia. f_equal. lia. }
    pose proof (Z.pow_pos_nonneg 2 (a - b - 1) ltac:(lia) ltac:(lia)).
    nia.
  - rewrite (Z.max_l 0 (a - b - 1)), (Z.max_r 0 (- (a - b - 1))) by lia.
    rewrite Z.pow_0_r, Z.mul_1_r.
    assert (Hpow : 2 ^ Z.succ b = 2 ^ a * 2 ^ (- (a - b - 1))).
    { rewrite <- Z.pow_add_r by lia. f_equal. lia. }
    pose proof (Z.pow_pos_nonneg 2 (- (a - b - 1)) ltac:(lia) ltac:(lia)).
    nia.
Qed.

(** Below [2^53] the quotient as a float, truncated, is the integer
    quotient. *)
Lemma quot_small_exact (n d : Z) :
  0 < n < 2 ^ 53 -> 0 < d ->
  let e := quot_exponent n d in
  e <= 0 /\ rne (n * 2 ^ (- e)) d / 2 ^ (- e) = n / d.
Proof.
  intros [Hn Hn53] Hd. cbn zeta. unfold quot_exponent.
  pose proof (log2_quot_le n d Hn Hd) as Hfl.
  pose proof (proj1 (Z.log2_lt_pow2 n 53 Hn) Hn53) as Hlog.
  pose proof (log2_quot_lower n d Hn Hd) as Hlow.
  unfold pow2_le in Hlow. apply Z.leb_le in Hlow.
  set (fl := log2_quot n d) in *.
  split; [lia|].
  destruct (Z.le_gt_cases (-1074) (fl - 52)) as [Hnorm|Hsub].
  - rewrite Z.max_l by lia.
    replace (- (fl - 52)) with (52 - fl) by lia.
    pose proof (Z.pow_pos_nonneg 2 (52 - fl) ltac:(lia) ltac:(lia)) as HP.
    apply rne_scaled_trunc; [lia..|].
    destruct (Z.le_gt_cases 0 fl) as [Hpos|Hneg].
    + rewrite (Z.max_r 0 fl), (Z.max_l 0 (- fl)), Z.pow_0_r in Hlow by lia.
      assert (Hpow : 2 ^ 53 = 2 ^ fl * (2 * 2 ^ (52 - fl))).
      { rewrite <- (Z.pow_succ_r 2 (52 - fl)), <- Z.pow_add_r by lia.
        f_equal. lia. }
      pose proof (Z.pow_pos_nonneg 2 fl ltac:(lia) Hpos).
      nia.
    + rewrite (Z.max_l 0 fl), (Z.max_r 0 (- fl)), Z.pow_0_r in Hlow by lia.
      assert (Hpow : 2 * 2 ^ (52 - fl) = 2 ^ 53 * 2 ^ (- fl)).
      { rewrite <- (Z.pow_succ_r 2 (52 - fl)), <- Z.pow_add_r by lia.
        f_equal. lia. }
      pose proof (Z.pow_pos_nonneg 2 (- fl) ltac:(lia) ltac:(lia)).
      nia.
  - rewrite Z.max_r by lia.
    change (- -1074) with 1074.
    assert (Hbig : 2 ^ 53 < 2 ^ 1074) by (apply Z.pow_lt_mono_r; lia).
    set (P := 2 ^ 1074) in *.
    destruct (Z.lt_ge_cases d (2 * P)) as [Hd2|Hd2].
    + apply rne_scaled_trunc; lia.
    + rewrite (Z.div_small n d) by lia.
      apply rne_scaled_small; [lia..|].
      assert (n * P / d <= n); [|lia].
      apply Z.div_le_upper_bound; [lia | nia].
Qed.

Lemma to_int_true_divide (a b : Z) :
  b <> 0 -> Z.abs a < 2 ^ 53 ->
  exists q, true_divide a b = Ok q /\ to_int q = a ÷ b.
Proof.
  intros Hb Ha. unfold true_divide.
  rewrite (proj2 (Z.eqb_neq b 0) Hb).
  destruct (Z.eqb_spec a 0) as [->|Ha0].
  - eexists. split; [done|]. unfold to_int. cbn [fexp fman fneg].
    rewrite Z.quot_0_l by done. by destruct (b <? 0).
  - assert (Hn : 0 < Z.abs a < 2 ^ 53) by lia.
    assert (Hd : 0 < Z.abs b) by lia.
    destruct (quot_small_exact _ _ Hn Hd) as [He Hq]. cbn zeta in He, Hq.
    set (e := quot_exponent (Z.abs a) (Z.abs b)) in *.
    rewrite (Z.max_l 0 e), (Z.max_r 0 (- e)), Z.pow_0_r, Z.mul_1_r by lia.
    set (m := rne (Z.abs a * 2 ^ (- e)) (Z.abs b)) in *.
    assert (Hquot : Z.abs a / Z.abs b <= Z.abs a).
    { apply Z.div_le_upper_bound; [lia | nia]. }
    assert (Hbig : 2 ^ 53 < 2 ^ 1024) by (apply Z.pow_lt_mono_r; lia).
    assert (Hv : (if 0 <=? e then m * 2 ^ e else m / 2 ^ (- e))
                 = Z.abs a / Z.abs b).
    { destruct (Z.leb_spec 0 e) as [He0|He0]; [|done].
      assert (e = 0) as -> by lia.
      change (- 0) with 0 in Hq. rewrite Z.pow_0_r in *.
      rewrite Z.div_1_r in Hq. lia. }
    assert (Hno : (0 <=? e) && (2 ^ 1024 <=? m * 2 ^ e) = false).
    { destruct (Z.leb_spec 0 e) as [He0|He0]; [|done].
      rewrite Hv. cbn. apply Z.leb_gt. lia. }
    rewrite Hno. eexists. split; [done|].
    unfold to_int. cbn [fexp fman fneg]. rewrite Hv.
    rewrite (Z.quot_div a b Hb).
    destruct (Z.ltb_spec a 0), (Z.ltb_spec b 0); cbn [xorb]; nia.
Qed.

(** The significand is never negative, so the sign of the truncated
    quotient is the sign recorded in the float. *)
Lemma to_int_sign (a b : Z) (q : float) :
  true_divide a b = Ok q ->
  (if fneg q then to_int q <= 0 else 0 <= to_int q) /\
  (b <> 0) /\
  (a <> 0 -> fneg q = xorb (a <? 0) (b <? 0)).
Proof.
  unfold true_divide.
  destruct (Z.eqb_spec b 0) as [|Hb]; [discriminate|].
  destruct (Z.eqb_spec a 0) as [->|Ha].
  - intros [= <-]. unfold to_int. cbn. by destruct (b <? 0).
  - destruct (_ && _); [discriminate|]. intros [= <-].
    unfold to_int. cbn [fexp fman fneg].
    set (e := quot_exponent (Z.abs a) (Z.abs b)).
    assert (Hp1 : 0 < 2 ^ Z.max 0 (- e)) by (apply Z.pow_pos_nonneg; lia).
    assert (Hp2 : 0 < 2 ^ Z.max 0 e) by (apply Z.pow_pos_nonneg; lia).
    pose proof (rne_nonneg (Z.abs a * 2 ^ Z.max 0 (- e))
                  (Z.abs b * 2 ^ Z.max 0 e) ltac:(nia) ltac:(nia)) as Hm.
    set (m := rne _ _) in *.
    assert (Hv : 0 <= (if 0 <=? e then m * 2 ^ e else m / 2 ^ (- e))).
    { destruct (Z.leb_spec 0 e).
      - pose proof (Z.pow_pos_nonneg 2 e ltac:(lia) ltac:(lia)). nia.
      - apply Z.div_pos; [done|]. apply Z.pow_pos_nonneg; lia. }
    split; [|done]. destruct (xorb _ _); lia.
Qed.

End FloatFacts.

(** ** [monthly_need_for_item] *)

Lemma monthly_need_nonneg (it : WishlistItem) (n : Z) :
  monthly_need_for_item it = Ok n -> 0 <= n.
Proof.
  unfold monthly_need_for_item.
  destruct (Float.true_divide _ _) as [q|e]; cbn; [|discriminate].
  intros [= <-]. lia.
Qed.

Lemma need_defined_ok (it : WishlistItem) :
  need_defined it -> exists n, monthly_need_for_item it = Ok n.
Proof.
  unfold need_defined.
  destruct (monthly_need_for_item it) as [n|e]; cbn; [by eauto | discriminate].
Qed.

Lemma monthly_need_small (it : WishlistItem) :
  Z.abs (target it - get_current it) < 2 ^ 53 ->
  monthly_need_for_item it
  = Ok (Z.max 0 ((target it - get_current it) ÷ months_or_1 it)).
Proof.
  intros Hsmall. unfold monthly_need_for_item. cbn zeta.
  assert (Hm : months_or_1 it <> 0).
  { unfold months_or_1. destruct (months it) as [m|]; [|done].
    destruct (Z.eqb_spec m 0); done. }
  destruct (FloatFacts.to_int_true_divide _ _ Hm Hsmall) as (q & -> & Hq).
  cbn. by rewrite Hq.
Qed.

Lemma small_need_defined (it : WishlistItem) :
  Z.abs (target it - get_current it) < 2 ^ 53 -> need_defined it.
Proof.
  intros Hsmall. unfold need_defined. by rewrite monthly_need_small.
Qed.

(** C2 as first written, for every item, fails past the 53 bits of a float
    significand: a need of [2^53 + 1] comes back as [2^53].  It also fails
    for a negative [months], which turns a met target into a positive
    need. *)
Lemma monthly_need_not_always_exact :
  let big := mkItem 1 "house" 9007199254740993 (Some 1) (Some 0) (Some 1) "t0" in
  let neg := mkItem 2 "lamp" 0 (Some (-1)) (Some 10) (Some 1) "t1" in
  (monthly_need_for_item big = Ok 9007199254740992 /\
   Z.max 0 ((target big - get_current big) ÷ months_or_1 big)
     = 9007199254740993 /\
   monthly_need_for_item big
     <> Ok (Z.max 0 ((target big - get_current big) ÷ months_or_1 big))) /\
  (target neg <= get_current neg /\
   monthly_need_for_item neg = Ok 10 /\
   monthly_need_for_item neg <> Ok 0).
Proof.
  cbn zeta. split; (split; [|split]); try (vm_compute; reflexivity).
  - vm_compute. discriminate.
  - vm_compute. discriminate.
  - vm_compute. discriminate.
Qed.

(** C2 (amended). [months] is taken as 1 when the key is missing or 0.  For
    an item with [|target - current| < 2^53], [monthly_need_for_item]
    returns [max(0, (target - current) / months)] with the quotient
    truncated toward zero.  Whatever it returns is not negative, and is 0
    when [current >= target] and [months] is not negative.  It is a function
    of the item's fields at the time of the call: 100000 for target 400000,
    current 100000, months 3, and 83333 once a deposit of 50000 has raised
    [current] to 150000. *)
Theorem monthly_need_truncates (it : WishlistItem) :
  let a := target it - get_current it in
  let m := months_or_1 it in
  (months it = None \/ months it = Some 0 -> m = 1) /\
  (forall k, months it = Some k -> k <> 0 -> m = k) /\
  (Z.abs a < 2 ^ 53 -> monthly_need_for_item it = Ok (Z.max 0 (a ÷ m))) /\
  (forall n, monthly_need_for_item it = Ok n ->
     0 <= n /\ (target it <= get_current it -> 0 < m -> n = 0)) /\
  (let item := mkItem 1 "desk" 400000 (Some 3) (Some 100000) (Some 1) "t0" in
   let data := mkState (mkProfile 0 0 0 0) [item] [] in
   monthly_need_for_item item = Ok 100000 /\
   exists item',
     wishlist (record_manual_deposit "t1" 1 50000 "gift" data) = [item'] /\
     current item' = Some 150000 /\
     monthly_need_for_item item' = Ok 83333).
Proof.
  cbn zeta. split; [|split; [|split; [|split]]].
  - unfold months_or_1. by intros [->| ->].
  - intros k Hk Hk0. unfold months_or_1. rewrite Hk.
    by rewrite (proj2 (Z.eqb_neq k 0) Hk0).
  - apply monthly_need_small.
  - intros n Hn. split; [by eapply monthly_need_nonneg|].
    intros Hmet Hm. unfold monthly_need_for_item in Hn. cbn zeta in Hn.
    destruct (Float.true_divide _ _) as [q|e] eqn:Hq; cbn in Hn;
      [|discriminate].
    injection Hn as <-.
    destruct (FloatFacts.to_int_sign _ _ _ Hq) as (Hsign & _ & Hneg).
    destruct (Z.eq_dec (target it - get_current it) 0) as [H0|H0].
    + rewrite H0 in Hq. unfold Float.true_divide in Hq.
      assert (Hm0 : months_or_1 it <> 0) by lia.
      rewrite (proj2 (Z.eqb_neq _ 0) Hm0) in Hq.
      cbn in Hq. injection Hq as <-. unfold Float.to_int. cbn.
      by destruct (_ <? 0).
    + assert (Ha : target it - get_current it < 0) by lia.
      assert (Hm0 : 0 <= months_or_1 it) by lia.
      rewrite (Hneg H0) in Hsign.
      rewrite (proj2 (Z.ltb_lt _ 0) Ha), (proj2 (Z.ltb_ge _ 0) Hm0) in Hsign.
      cbn in Hsign. lia.
  - split; [vm_compute; reflexivity|].
    eexists. split; [reflexivity|]. split; vm_compute; reflexivity.
Qed.

Lemma monthly_need_truncates_witness :
  let it := mkItem 7 "bike" 250000 None (Some 40000) (Some 3) "t0" in
  let it' := mkItem 8 "book" 30000 (Some 4) (Some 45000) (Some 3) "t1" in
  months_or_1 it = 1 /\
  Z.abs (target it - get_current it) < 2 ^ 53 /\
  monthly_need_for_item it = Ok 210000 /\
  target it' <= get_current it' /\ 0 < months_or_1 it' /\
  monthly_need_for_item it' = Ok 0.
Proof.
  cbn zeta.
  pose proof (monthly_need_truncates
    (mkItem 7 "bike" 250000 None (Some 40000) (Some 3) "t0")) as H.
  pose proof (monthly_need_truncates
    (mkItem 8 "book" 30000 (Some 4) (Some 45000) (Some 3) "t1")) as H'.
  cbn zeta in H, H'.
  destruct H as (Hm & _ & Hsmall & _ & _).
  destruct H' as (_ & _ & Hsmall' & Hmet & _).
  assert (Hb : Z.abs (target (mkItem 7 "bike" 250000 None (Some 40000)
                                (Some 3) "t0")
                      - get_current (mkItem 7 "bike" 250000 None (Some 40000)
                                       (Some 3) "t0")) < 2 ^ 53)
    by (vm_compute; reflexivity).
  assert (Hb' : Z.abs (target (mkItem 8 "book" 30000 (Some 4) (Some 45000)
                                 (Some 3) "t1")
                      - get_current (mkItem 8 "book" 30000 (Some 4)
                                       (Some 45000) (Some 3) "t1")) < 2 ^ 53)
    by (vm_compute; reflexivity).
  split; [exact (Hm (or_introl eq_refl))|]. split; [exact Hb|].
  split; [exact (Hsmall Hb)|].
  assert (Hle : target (mkItem 8 "book" 30000 (Some 4) (Some 45000)
                          (Some 3) "t1")
                <= get_current (mkItem 8 "book" 30000 (Some 4) (Some 45000)
                                  (Some 3) "t1"))
    by (cbn; lia).
  assert (Hpos : 0 < months_or_1 (mkItem 8 "book" 30000 (Some 4) (Some 45000)
                                    (Some 3) "t1"))
    by (vm_compute; reflexivity).
  split; [exact Hle|]. split; [exact Hpos|].
  pose proof (Hsmall' Hb') as Hrun.
  destruct (Hmet _ Hrun) as [_ Hzero].
  rewrite Hrun. exact (f_equal Ok (Hzero Hle Hpos)).
Defined.

(** ** [sorted] is a stable sort *)

Section SortedFacts.
Context {A : Type} (key : A -> Z).

Lemma insert_by_perm (x : A) (l : list A) : insert_by key x l ≡ₚ x :: l.
Proof.
  induction l as [|y l IH]; cbn; [done|].
  destruct (key x <=? key y); [done|].
  rewrite IH. apply Permutation_swap.
Qed.

Lemma sorted_perm (l : list A) : sorted key l ≡ₚ l.
Proof.
  induction l as [|x l IH]; cbn; [done|].
  rewrite insert_by_perm. by rewrite IH.
Qed.

Lemma insert_by_sorted (x : A) (l : list A) :
  StronglySorted (key_le key) l -> StronglySorted (key_le key) (insert_by key x l).
Proof.
  induction l as [|y l IH]; intros Hs; cbn.
  - apply StronglySorted_cons. split; [apply Forall_nil_2 | done].
  - apply StronglySorted_cons in Hs as [Hy Hl].
    destruct (Z.leb_spec (key x) (key y)) as [Hle|Hlt].
    + apply StronglySorted_cons. split.
      * apply Forall_cons. split; [done|].
        eapply Forall_impl; [exact Hy|]. unfold key_le. intros z Hz. lia.
      * apply StronglySorted_cons. by split.
    + apply StronglySorted_cons. split; [|by apply IH].
      rewrite insert_by_perm. apply Forall_cons. split; [|done].
      unfold key_le. lia.
Qed.

Lemma sorted_sorted (l : list A) : StronglySorted (key_le key) (sorted key l).
Proof.
  induction l as [|x l IH]; cbn; [constructor|].
  by apply insert_by_sorted.
Qed.

(** The elements with a given key keep their order. *)
Lemma insert_by_filter (k : Z) (x : A) (l : list A) :
  filter (fun y => key y = k) (insert_by key x l)
  = filter (fun y => key y = k) (x :: l).
Proof.
  induction l as [|y l IH]; cbn; [done|].
  destruct (Z.leb_spec (key x) (key y)) as [Hle|Hlt]; [done|].
  rewrite filter_cons, IH, !filter_cons.
  destruct (decide (key y = k)) as [Hy|Hy];
    destruct (decide (key x = k)) as [Hx|Hx]; try done.
  lia.
Qed.

Lemma sorted_stable (k : Z) (l : list A) :
  filter (fun y => key y = k) (sorted key l) = filter (fun y => key y = k) l.
Proof.
  induction l as [|x l IH]; cbn; [done|].
  rewrite insert_by_filter, !filter_cons. by rewrite IH.
Qed.

(** A stable sort has only one possible result: two lists in ascending
    key order that agree on the elements of each key are equal.  So
    [sorted] returns what any stable sort of the list returns. *)
Lemma stable_sorted_unique (l1 l2 : list A) :
  StronglySorted (key_le key) l1 -> StronglySorted (key_le key) l2 ->
  (forall k, filter (fun y => key y = k) l1 = filter (fun y => key y = k) l2) ->
  l1 = l2.
Proof.
  intros Hs1. revert l2.
  induction l1 as [|x l1 IH]; intros l2 Hs2 Hf.
  - destruct l2 as [|y l2]; [done|].
    specialize (Hf (key y)). by rewrite filter_nil, filter_cons_True in Hf.
  - destruct l2 as [|y l2].
    { specialize (Hf (key x)). by rewrite filter_nil, filter_cons_True in Hf. }
    apply StronglySorted_cons in Hs1 as [Hx Hs1].
    apply StronglySorted_cons in Hs2 as [Hy Hs2].
    rewrite Forall_forall in Hx, Hy.
    assert (Hxy : key x = key y).
    { pose proof (Hf (key x)) as Hfx. pose proof (Hf (key y)) as Hfy.
      rewrite (filter_cons_True _ x) in Hfx by done.
      rewrite (filter_cons_True _ y l2) in Hfy by done.
      assert (Hx2 : x ∈ y :: l2).
      { eapply list_elem_of_filter. rewrite <- Hfx. apply elem_of_cons; by left. }
      assert (Hy1 : y ∈ x :: l1).
      { eapply list_elem_of_filter. rewrite Hfy. apply elem_of_cons; by left. }
      apply elem_of_cons in Hx2 as [->|Hx2]; [done|].
      apply elem_of_cons in Hy1 as [->|Hy1]; [done|].
      specialize (Hx _ Hy1). specialize (Hy _ Hx2). unfold key_le in *. lia. }
    pose proof (Hf (key x)) as Hfx.
    rewrite (filter_cons_True _ x), (filter_cons_True _ y) in Hfx by done.
    injection Hfx as <- Hfx. f_equal.
    apply IH; [done..|].
    intros k. destruct (decide (key x = k)) as [<-|Hk]; [done|].
    specialize (Hf k). by rewrite !filter_cons_False in Hf.
Qed.

Lemma sorted_nonempty (l : list A) :
  l <> [] -> exists x rest, sorted key l = x :: rest.
Proof.
  intros Hne. destruct (sorted key l) as [|x rest] eqn:Hs; [|by eauto].
  exfalso. apply Hne. apply Permutation_nil_r.
  rewrite <- Hs. symmetry. apply sorted_perm.
Qed.
End SortedFacts.

(** ** The allocation loop *)

(** The accumulator only collects: the loop started on [acc] returns [acc]
    followed by what the loop started on the empty list returns. *)
Lemma alloc_loop_acc (items : list WishlistItem) (acc : list Allocation)
    (remaining : Z) :
  alloc_loop items acc remaining
  = (res <- alloc_loop items [] remaining ;; Ok (acc ++ res.1, res.2)).
Proof.
  revert acc remaining.
  induction items as [|it rest IH]; intros acc remaining; cbn.
  - by rewrite app_nil_r.
  - destruct (monthly_need_for_item it) as [n|e]; cbn; [|done].
    destruct (remaining - Z.min n remaining <=? 0); cbn; [done|].
    rewrite (IH (acc ++ _)), (IH [_]).
    destruct (alloc_loop rest [] _) as [[new r]|e]; cbn; [|done].
    by rewrite <- app_assoc.
Qed.

Lemma alloc_loop_trace (items : list WishlistItem) (remaining : Z)
    (alloc : list Allocation) (remaining' : Z) :
  alloc_loop items [] remaining = Ok (alloc, remaining')
  <-> loop_trace items remaining alloc remaining'.
Proof.
  split.
  - revert remaining alloc remaining'.
    induction items as [|it rest IH]; intros remaining alloc remaining'; cbn.
    + intros [= <- <-]. constructor.
    + destruct (monthly_need_for_item it) as [n|e] eqn:Hn; cbn; [|discriminate].
      destruct (Z.leb_spec (remaining - Z.min n remaining) 0) as [Hle|Hgt].
      * intros [= <- <-]. by apply trace_break.
      * rewrite alloc_loop_acc.
        destruct (alloc_loop rest [] _) as [[new r]|e] eqn:Hrest; cbn;
          [|discriminate].
        intros [= <- <-]. apply trace_next; [done..|]. by apply IH.
  - induction 1 as [r|it rest r n Hn Hle|it rest r n new r' Hn Hgt _ IH]; cbn.
    + done.
    + rewrite Hn. cbn. by rewrite (proj2 (Z.leb_le _ _) Hle).
    + rewrite Hn. cbn. rewrite (proj2 (Z.leb_gt _ _) Hgt).
      rewrite alloc_loop_acc, IH. done.
Qed.

Lemma allocate_trace (usable : Z) (wl : list WishlistItem)
    (alloc : list Allocation) (remaining : Z) :
  allocate_to_wishlist usable wl = Ok (alloc, remaining)
  <-> loop_trace (sorted priority_key wl) usable alloc remaining.
Proof. apply alloc_loop_trace. Qed.

(** The loop returns as soon as no division raises. *)
Lemma loop_trace_total (items : list WishlistItem) (remaining : Z) :
  Forall need_defined items ->
  exists alloc remaining', loop_trace items remaining alloc remaining'.
Proof.
  revert remaining.
  induction items as [|it rest IH]; intros remaining Hdef.
  - exists [], remaining. constructor.
  - apply Forall_cons in Hdef as [Hit Hrest].
    apply need_defined_ok in Hit as [n Hn].
    destruct (Z.le_gt_cases (remaining - Z.min n remaining) 0) as [Hle|Hgt].
    + eexists _, _. by apply trace_break.
    + destruct (IH (remaining - Z.min n remaining) Hrest) as (new & r' & Htr).
      eexists _, _. apply trace_next; [done| lia |exact Htr].
Qed.

Lemma allocate_total (usable : Z) (wl : list WishlistItem) :
  Forall need_defined wl ->
  exists alloc remaining, allocate_to_wishlist usable wl = Ok (alloc, remaining).
Proof.
  intros Hdef.
  destruct (loop_trace_total (sorted priority_key wl) usable)
    as (alloc & r & Htr).
  - by rewrite sorted_perm.
  - exists alloc, r. by apply allocate_trace.
Qed.

Lemma loop_trace_budget (items : list WishlistItem) (remaining : Z)
    (alloc : list Allocation) (remaining' : Z) :
  loop_trace items remaining alloc remaining' ->
  budget_trace remaining alloc remaining'.
Proof.
  induction 1 as [r|it rest r n Hn Hle|it rest r n new r' Hn Hgt _ IH].
  - constructor.
  - apply budget_step; [done|]. constructor.
  - by apply budget_step.
Qed.

Lemma budget_trace_sum (remaining : Z) (alloc : list Allocation)
    (remaining' : Z) :
  budget_trace remaining alloc remaining' ->
  sum_Z (map assigned alloc) + remaining' = remaining.
Proof.
  induction 1 as [r|r a alloc r' Ha _ IH]; cbn; [lia|].
  unfold sum_Z in IH. lia.
Qed.

Lemma budget_trace_nonneg (remaining : Z) (alloc : list Allocation)
    (remaining' : Z) :
  budget_trace remaining alloc remaining' -> 0 <= remaining -> 0 <= remaining'.
Proof.
  induction 1 as [r|r a alloc r' Ha _ IH]; intros Hr; [done|].
  apply IH. lia.
Qed.

(** The records are those of a prefix of the items, in the same order. *)
Lemma loop_trace_prefix (items : list WishlistItem) (remaining : Z)
    (alloc : list Allocation) (remaining' : Z) :
  loop_trace items remaining alloc remaining' ->
  Forall2 (fun it a => alloc_id a = id it /\ alloc_name a = name it /\
                       monthly_need_for_item it = Ok (need a))
          (take (length alloc) items) alloc.
Proof.
  induction 1 as [r|it rest r n Hn Hle|it rest r n new r' Hn Hgt _ IH]; cbn.
  - constructor.
  - rewrite take_0. constructor; [by cbn | constructor].
  - constructor; [by cbn | done].
Qed.

Lemma loop_trace_ids (items : list WishlistItem) (remaining : Z)
    (alloc : list Allocation) (remaining' : Z) :
  loop_trace items remaining alloc remaining' ->
  map alloc_id alloc = map id (take (length alloc) items).
Proof.
  intros Htr. apply loop_trace_prefix in Htr.
  induction Htr as [|it a its new (Hid & _ & _) _ IH]; cbn; [done|].
  by rewrite Hid, IH.
Qed.

(** C5. Whenever [allocate_to_wishlist] returns, the records it returns
    follow the budget step by step: in each record [assigned] is the smaller
    of [need] and the budget remaining at that point, the budget then goes
    down by exactly [assigned], [need] is [monthly_need_for_item] of the
    item the record is for, and for a non-negative [usable] the remaining
    budget returned is not negative.  It does return when no division of
    [monthly_need_for_item] overflows. *)
Theorem allocation_budget_steps (usable : Z) (wl : list WishlistItem) :
  (Forall need_defined wl ->
   exists alloc remaining,
     allocate_to_wishlist usable wl = Ok (alloc, remaining)) /\
  (forall alloc remaining,
     allocate_to_wishlist usable wl = Ok (alloc, remaining) ->
     budget_trace usable alloc remaining /\
     Forall2 (fun it a => monthly_need_for_item it = Ok (need a))
             (take (length alloc) (sorted priority_key wl)) alloc /\
     (0 <= usable -> 0 <= remaining)).
Proof.
  split; [apply allocate_total|].
  intros alloc remaining Hrun. apply allocate_trace in Hrun.
  split; [by eapply loop_trace_budget|]. split.
  - eapply Forall2_impl; [by eapply loop_trace_prefix|].
    by intros it a (_ & _ & Hn).
  - eapply budget_trace_nonneg. by eapply loop_trace_budget.
Qed.

Lemma allocation_budget_steps_witness :
  let wl := [mkItem 1 "desk" 100 (Some 1) (Some 0) (Some 2) "t0";
             mkItem 2 "lamp" 50 (Some 1) (Some 0) (Some 1) "t1"] in
  allocate_to_wishlist 120 wl
    = Ok ([mkAlloc 2 "lamp" 50 50; mkAlloc 1 "desk" 70 100], 0) /\
  budget_trace 120 [mkAlloc 2 "lamp" 50 50; mkAlloc 1 "desk" 70 100] 0 /\
  0 <= 120.
Proof.
  cbn zeta.
  assert (Hrun : allocate_to_wishlist 120
            [mkItem 1 "desk" 100 (Some 1) (Some 0) (Some 2) "t0";
             mkItem 2 "lamp" 50 (Some 1) (Some 0) (Some 1) "t1"]
          = Ok ([mkAlloc 2 "lamp" 50 50; mkAlloc 1 "desk" 70 100], 0))
    by (vm_compute; reflexivity).
  split; [exact Hrun|]. split; [|lia].
  exact (proj1 (proj2 (allocation_budget_steps 120 _) _ _ Hrun)).
Defined.

(** C10. Budget conservation: for a non-negative [usable] and any wishlist,
    whenever [allocate_to_wishlist] returns, the [assigned] amounts of the
    returned records and the returned remaining budget add up to [usable];
    and it does return when no division overflows. *)
Theorem allocation_conserves_budget (usable : Z) (wl : list WishlistItem) :
  0 <= usable ->
  (Forall need_defined wl ->
   exists alloc remaining,
     allocate_to_wishlist usable wl = Ok (alloc, remaining)) /\
  (forall alloc remaining,
     allocate_to_wishlist usable wl = Ok (alloc, remaining) ->
     sum_Z (map assigned alloc) + remaining = usable).
Proof.
  intros _. split; [apply allocate_total|].
  intros alloc remaining Hrun. apply allocate_trace in Hrun.
  apply budget_trace_sum. by eapply loop_trace_budget.
Qed.

Lemma allocation_conserves_budget_witness :
  let wl := [mkItem 1 "desk" 100 (Some 1) (Some 0) (Some 2) "t0";
             mkItem 2 "lamp" 50 (Some 1) (Some 0) (Some 1) "t1";
             mkItem 3 "bike" 80 (Some 1) (Some 0) (Some 2) "t2"] in
  0 <= 190 /\
  allocate_to_wishlist 190 wl
    = Ok ([mkAlloc 2 "lamp" 50 50; mkAlloc 1 "desk" 100 100;
           mkAlloc 3 "bike" 40 80], 0) /\
  sum_Z [50; 100; 40] + 0 = 190.
Proof.
  cbn zeta.
  assert (Hpos : 0 <= 190) by lia.
  assert (Hrun : allocate_to_wishlist 190
            [mkItem 1 "desk" 100 (Some 1) (Some 0) (Some 2) "t0";
             mkItem 2 "lamp" 50 (Some 1) (Some 0) (Some 1) "t1";
             mkItem 3 "bike" 80 (Some 1) (Some 0) (Some 2) "t2"]
          = Ok ([mkAlloc 2 "lamp" 50 50; mkAlloc 1 "desk" 100 100;
                 mkAlloc 3 "bike" 40 80], 0))
    by (vm_compute; reflexivity).
  split; [exact Hpos|]. split; [exact Hrun|].
  exact (proj2 (allocation_conserves_budget 190 _ Hpos) _ _ Hrun).
Defined.

(** C9. With a budget of 0 and a non-empty wishlist the result is not the
    empty list: the loop appends the record of the first item in priority
    order, with [assigned = 0], and only then tests the budget and leaves.
    The call returns exactly that one record and a remaining budget of 0
    (the only other outcome is an exception from the division for that
    first item). *)
Theorem allocate_zero_budget (wl : list WishlistItem) :
  wl <> [] ->
  exists it rest,
    sorted priority_key wl = it :: rest /\
    allocate_to_wishlist 0 wl
      = (n <- monthly_need_for_item it ;; Ok ([record_of it 0 n], 0)) /\
    (need_defined it ->
     exists n, monthly_need_for_item it = Ok n /\
       allocate_to_wishlist 0 wl = Ok ([mkAlloc (id it) (name it) 0 n], 0)).
Proof.
  intros Hne.
  destruct (sorted_nonempty priority_key wl Hne) as (it & rest & Hs).
  exists it, rest. split; [done|].
  assert (Heq : allocate_to_wishlist 0 wl
      = (n <- monthly_need_for_item it ;; Ok ([record_of it 0 n], 0))).
  { unfold allocate_to_wishlist. cbn zeta. rewrite Hs. cbn.
    destruct (monthly_need_for_item it) as [n|e] eqn:Hn; cbn; [|done].
    apply monthly_need_nonneg in Hn.
    rewrite Z.min_r by done. cbn. done. }
  split; [done|].
  intros Hdef. apply need_defined_ok in Hdef as [n Hn].
  exists n. split; [done|]. by rewrite Heq, Hn.
Qed.

Lemma allocate_zero_budget_witness :
  let wl := [mkItem 1 "desk" 100 (Some 1) (Some 0) (Some 2) "t0";
             mkItem 2 "lamp" 50 (Some 1) (Some 0) (Some 1) "t1"] in
  wl <> [] /\
  allocate_to_wishlist 0 wl = Ok ([mkAlloc 2 "lamp" 0 50], 0).
Proof.
  cbn zeta.
  assert (Hne : [mkItem 1 "desk" 100 (Some 1) (Some 0) (Some 2) "t0";
                 mkItem 2 "lamp" 50 (Some 1) (Some 0) (Some 1) "t1"] <> [])
    by discriminate.
  split; [exact Hne|].
  destruct (allocate_zero_budget _ Hne) as (it & rest & Hs & Heq & _).
  vm_compute in Hs. injection Hs as <- <-.
  rewrite Heq. vm_compute. reflexivity.
Defined.

(** ** Priority order *)

(** C4. The items are processed in the order of [sorted]: that list is a
    rearrangement of the wishlist, ascending in the priority key, where an
    item without a priority counts as 999 (so no item with a smaller key
    comes after it), and items with the same key keep the order they have in
    the wishlist.  The records returned are those of the first items of that
    list, in that order; so of two items with the same priority and a budget
    that covers only one, the one that comes first in the wishlist is the
    one funded. *)
Theorem allocate_priority_order (usable : Z) (wl : list WishlistItem) :
  let s := sorted priority_key wl in
  s ≡ₚ wl /\
  StronglySorted (key_le priority_key) s /\
  (forall k, filter (fun it => priority_key it = k) s
             = filter (fun it => priority_key it = k) wl) /\
  (forall it, priority_key it
              = match priority it with Some p => p | None => 999 end) /\
  (forall s1 it s2, s = s1 ++ it :: s2 -> priority it = None ->
     forall it', it' ∈ s2 -> 999 <= priority_key it') /\
  (forall alloc remaining,
     allocate_to_wishlist usable wl = Ok (alloc, remaining) ->
     Forall2 (fun it a => alloc_id a = id it /\ alloc_name a = name it /\
                          monthly_need_for_item it = Ok (need a))
             (take (length alloc) s) alloc) /\
  (let a := mkItem 1 "desk" 100 (Some 1) (Some 0) (Some 2) "t0" in
   let b := mkItem 2 "lamp" 100 (Some 1) (Some 0) (Some 2) "t1" in
   allocate_to_wishlist 100 [a; b] = Ok ([mkAlloc 1 "desk" 100 100], 0) /\
   allocate_to_wishlist 100 [b; a] = Ok ([mkAlloc 2 "lamp" 100 100], 0)).
Proof.
  cbn zeta.
  split; [apply sorted_perm|]. split; [apply sorted_sorted|].
  split; [intros k; apply sorted_stable|].
  split; [intros it; unfold priority_key; by destruct (priority it)|].
  split; [|split].
  - intros s1 it s2 Hs Hnone it' Hin.
    pose proof (sorted_sorted priority_key wl) as Hsorted. rewrite Hs in Hsorted.
    apply StronglySorted_app in Hsorted as (_ & _ & Hsorted).
    apply StronglySorted_cons in Hsorted as [Hall _].
    rewrite Forall_forall in Hall. specialize (Hall it' Hin).
    unfold key_le, priority_key in *. rewrite Hnone in Hall. done.
  - intros alloc remaining Hrun. apply allocate_trace in Hrun.
    by eapply loop_trace_prefix.
  - split; vm_compute; reflexivity.
Qed.

Lemma allocate_priority_order_witness :
  let a := mkItem 1 "desk" 100 (Some 1) (Some 0) (Some 2) "t0" in
  let b := mkItem 2 "lamp" 50 (Some 1) (Some 0) None "t1" in
  let c := mkItem 3 "bike" 80 (Some 1) (Some 0) (Some 2) "t2" in
  let d := mkItem 4 "book" 30 (Some 1) (Some 0) (Some 1) "t3" in
  sorted priority_key [a; b; c; d] = [d; a; c] ++ b :: [] /\
  priority b = None /\
  allocate_to_wishlist 150 [a; b; c; d]
    = Ok ([mkAlloc 4 "book" 30 30; mkAlloc 1 "desk" 100 100;
           mkAlloc 3 "bike" 20 80], 0) /\
  Forall2 (fun it a => alloc_id a = id it /\ alloc_name a = name it /\
                       monthly_need_for_item it = Ok (need a))
          [d; a; c]
          [mkAlloc 4 "book" 30 30; mkAlloc 1 "desk" 100 100;
           mkAlloc 3 "bike" 20 80] /\
  (forall it', it' ∈ [] -> 999 <= priority_key it').
Proof.
  cbn zeta.
  pose proof (allocate_priority_order 150
    [mkItem 1 "desk" 100 (Some 1) (Some 0) (Some 2) "t0";
     mkItem 2 "lamp" 50 (Some 1) (Some 0) None "t1";
     mkItem 3 "bike" 80 (Some 1) (Some 0) (Some 2) "t2";
     mkItem 4 "book" 30 (Some 1) (Some 0) (Some 1) "t3"]) as H.
  cbn zeta in H. destruct H as (_ & _ & _ & _ & Hlast & Hrec & _).
  assert (Hs : sorted priority_key
    [mkItem 1 "desk" 100 (Some 1) (Some 0) (Some 2) "t0";
     mkItem 2 "lamp" 50 (Some 1) (Some 0) None "t1";
     mkItem 3 "bike" 80 (Some 1) (Some 0) (Some 2) "t2";
     mkItem 4 "book" 30 (Some 1) (Some 0) (Some 1) "t3"]
    = [mkItem 4 "book" 30 (Some 1) (Some 0) (Some 1) "t3";
       mkItem 1 "desk" 100 (Some 1) (Some 0) (Some 2) "t0";
       mkItem 3 "bike" 80 (Some 1) (Some 0) (Some 2) "t2"]
      ++ mkItem 2 "lamp" 50 (Some 1) (Some 0) None "t1" :: [])
    by (vm_compute; reflexivity).
  assert (Hrun : allocate_to_wishlist 150
    [mkItem 1 "desk" 100 (Some 1) (Some 0) (Some 2) "t0";
     mkItem 2 "lamp" 50 (Some 1) (Some 0) None "t1";
     mkItem 3 "bike" 80 (Some 1) (Some 0) (Some 2) "t2";
     mkItem 4 "book" 30 (Some 1) (Some 0) (Some 1) "t3"]
    = Ok ([mkAlloc 4 "book" 30 30; mkAlloc 1 "desk" 100 100;
           mkAlloc 3 "bike" 20 80], 0))
    by (vm_compute; reflexivity).
  split; [exact Hs|]. split; [reflexivity|]. split; [exact Hrun|].
  split.
  - exact (Hrec _ _ Hrun).
  - exact (Hlast _ _ _ Hs eq_refl).
Defined.

(** ** Early exit *)

Lemma needs_sum_nonneg (pre : list WishlistItem) (ns : list Z) :
  Forall2 (fun it n => monthly_need_for_item it = Ok n) pre ns ->
  0 <= sum_Z ns.
Proof.
  induction 1 as [|it n pre ns Hn _ IH]; cbn; [lia|].
  apply monthly_need_nonneg in Hn. unfold sum_Z in IH. lia.
Qed.

(** The items before the one that exhausts the budget are funded in full,
    that one gets what is left, and the loop stops there. *)
Lemma loop_trace_exhaust (pre post : list WishlistItem) (it : WishlistItem)
    (ns : list Z) (n remaining : Z) :
  Forall2 (fun x m => monthly_need_for_item x = Ok m) pre ns ->
  monthly_need_for_item it = Ok n ->
  sum_Z ns < remaining <= sum_Z ns + n ->
  loop_trace (pre ++ it :: post) remaining
    (zip_with (fun x m => record_of x m m) pre ns
       ++ [record_of it (remaining - sum_Z ns) n])
    0.
Proof.
  intros Hpre Hit. revert remaining.
  induction Hpre as [|x m pre ns Hm Hpre IH]; intros remaining Hsum; cbn in *.
  - assert (Hmin : Z.min n remaining = remaining) by lia.
    pose proof (trace_break it post remaining n Hit) as Hbrk.
    rewrite Hmin, Z.sub_diag in Hbrk.
    rewrite Z.sub_0_r. by apply Hbrk.
  - pose proof (monthly_need_nonneg _ _ Hm) as Hm0.
    pose proof (needs_sum_nonneg _ _ Hpre) as Hns0. unfold sum_Z in *.
    replace (record_of x m m) with (record_of x (Z.min m remaining) m)
      by (f_equal; lia).
    apply trace_next; [done | lia |].
    replace (remaining - Z.min m remaining) with (remaining - m) by lia.
    replace (remaining - (m + foldr Z.add 0 ns))
      with (remaining - m - foldr Z.add 0 ns) by lia.
    apply IH. lia.
Qed.

(** C1. The loop leaves as soon as the remaining budget is 0.  When the
    items ahead of [it] in priority order need less than [usable] in total
    and [it] takes the total to [usable] or beyond, the result holds a
    record for each of those items (funded in full) and a last record for
    [it] (funded with what is left), the remaining budget is 0, and no item
    after [it] has a record.  For the three items with ids 1, 2, 3,
    priorities 2, 1, 2 and needs 100, 50, 80 and a budget of 120: id 2 gets
    50, id 1 gets 70, id 3 has no record, and 0 remains. *)
Theorem allocate_early_exit :
  (forall usable wl pre it post ns n,
     sorted priority_key wl = pre ++ it :: post ->
     Forall2 (fun x m => monthly_need_for_item x = Ok m) pre ns ->
     monthly_need_for_item it = Ok n ->
     sum_Z ns < usable <= sum_Z ns + n ->
     let alloc := zip_with (fun x m => record_of x m m) pre ns
                    ++ [record_of it (usable - sum_Z ns) n] in
     allocate_to_wishlist usable wl = Ok (alloc, 0) /\
     length alloc = S (length pre) /\
     (NoDup (map id wl) ->
      forall x, x ∈ post -> id x ∉ map alloc_id alloc)) /\
  (let i1 := mkItem 1 "desk" 100 (Some 1) (Some 0) (Some 2) "t0" in
   let i2 := mkItem 2 "lamp" 50 (Some 1) (Some 0) (Some 1) "t1" in
   let i3 := mkItem 3 "bike" 80 (Some 1) (Some 0) (Some 2) "t2" in
   map monthly_need_for_item [i1; i2; i3] = [Ok 100; Ok 50; Ok 80] /\
   allocate_to_wishlist 120 [i1; i2; i3]
     = Ok ([mkAlloc 2 "lamp" 50 50; mkAlloc 1 "desk" 70 100], 0)).
Proof.
  split; [|split; vm_compute; reflexivity].
  intros usable wl pre it post ns n Hs Hpre Hit Hsum alloc.
  assert (Htr : loop_trace (sorted priority_key wl) usable alloc 0).
  { rewrite Hs. by apply loop_trace_exhaust. }
  split; [by apply allocate_trace|].
  assert (Hlen : length alloc = S (length pre)).
  { unfold alloc. rewrite length_app, length_zip_with. cbn.
    apply Forall2_length in Hpre. lia. }
  split; [done|].
  intros Hnd x Hx Hin.
  assert (Hsplit : pre ++ it :: post = (pre ++ [it]) ++ post)
    by (by rewrite <- app_assoc).
  assert (Htake : take (S (length pre)) (pre ++ it :: post) = pre ++ [it]).
  { rewrite Hsplit.
    replace (S (length pre)) with (length (pre ++ [it]))
      by (rewrite length_app; cbn; lia).
    apply take_app_length. }
  rewrite (loop_trace_ids _ _ _ _ Htr), Hlen, Hs, Htake in Hin.
  assert (Hnd' : NoDup (map id (sorted priority_key wl))).
  { eapply NoDup_Permutation_proper; [|exact Hnd].
    apply Permutation_map, sorted_perm. }
  rewrite Hs, Hsplit, map_app in Hnd'.
  apply NoDup_app in Hnd' as (_ & Hdisj & _).
  apply (Hdisj (id x)); [done|].
  apply list_elem_of_fmap. by exists x.
Qed.

Lemma allocate_early_exit_witness :
  let i1 := mkItem 1 "desk" 100 (Some 1) (Some 0) (Some 2) "t0" in
  let i2 := mkItem 2 "lamp" 50 (Some 1) (Some 0) (Some 1) "t1" in
  let i3 := mkItem 3 "bike" 80 (Some 1) (Some 0) (Some 2) "t2" in
  sorted priority_key [i1; i2; i3] = [i2] ++ i1 :: [i3] /\
  sum_Z [50] < 120 <= sum_Z [50] + 100 /\
  allocate_to_wishlist 120 [i1; i2; i3]
    = Ok ([mkAlloc 2 "lamp" 50 50; mkAlloc 1 "desk" 70 100], 0) /\
  id i3 ∉ [2; 1].
Proof.
  cbn zeta.
  assert (Hs : sorted priority_key
      [mkItem 1 "desk" 100 (Some 1) (Some 0) (Some 2) "t0";
       mkItem 2 "lamp" 50 (Some 1) (Some 0) (Some 1) "t1";
       mkItem 3 "bike" 80 (Some 1) (Some 0) (Some 2) "t2"]
    = [mkItem 2 "lamp" 50 (Some 1) (Some 0) (Some 1) "t1"]
      ++ mkItem 1 "desk" 100 (Some 1) (Some 0) (Some 2) "t0"
      :: [mkItem 3 "bike" 80 (Some 1) (Some 0) (Some 2) "t2"])
    by (vm_compute; reflexivity).
  assert (Hpre : Forall2 (fun x m => monthly_need_for_item x = Ok m)
      [mkItem 2 "lamp" 50 (Some 1) (Some 0) (Some 1) "t1"] [50]).
  { constructor; [vm_compute; reflexivity | constructor]. }
  assert (Hit : monthly_need_for_item
      (mkItem 1 "desk" 100 (Some 1) (Some 0) (Some 2) "t0") = Ok 100)
    by (vm_compute; reflexivity).
  assert (Hsum : sum_Z [50] < 120 <= sum_Z [50] + 100) by (cbn; lia).
  assert (Hnd : NoDup (map id
      [mkItem 1 "desk" 100 (Some 1) (Some 0) (Some 2) "t0";
       mkItem 2 "lamp" 50 (Some 1) (Some 0) (Some 1) "t1";
       mkItem 3 "bike" 80 (Some 1) (Some 0) (Some 2) "t2"])).
  { cbn. repeat (apply NoDup_cons; split); try apply NoDup_nil_2;
      rewrite ?elem_of_cons, ?elem_of_nil; intros H;
      repeat (destruct H as [H|H]; try discriminate); done. }
  destruct (proj1 allocate_early_exit 120 _ _ _ _ _ _ Hs Hpre Hit Hsum)
    as (Hrun & _ & Habs).
  split; [exact Hs|]. split; [exact Hsum|]. split; [exact Hrun|].
  apply (Habs Hnd (mkItem 3 "bike" 80 (Some 1) (Some 0) (Some 2) "t2")).
  apply list_elem_of_singleton. reflexivity.
Defined.

(** ** [new_item_id] and the uniqueness of ids *)

Lemma py_max_ge_init (x : Z) (l : list Z) : x <= py_max x l.
Proof.
  unfold py_max. revert x.
  induction l as [|y l IH]; intros x; cbn; [lia|].
  specialize (IH (Z.max x y)). lia.
Qed.

Lemma py_max_upper (x : Z) (l : list Z) (y : Z) : y ∈ x :: l -> y <= py_max x l.
Proof.
  unfold py_max. revert x.
  induction l as [|z l IH]; intros x Hy; cbn.
  - apply list_elem_of_singleton in Hy. lia.
  - pose proof (py_max_ge_init (Z.max x z) l) as Hge. unfold py_max in Hge.
    apply elem_of_cons in Hy as [->|Hy]; [lia|].
    apply elem_of_cons in Hy as [->|Hy]; [lia|].
    apply IH. by apply elem_of_cons; right.
Qed.

Lemma py_max_elem (x : Z) (l : list Z) : py_max x l ∈ x :: l.
Proof.
  unfold py_max. revert x.
  induction l as [|z l IH]; intros x; cbn.
  - apply elem_of_cons; by left.
  - specialize (IH (Z.max x z)).
    apply elem_of_cons in IH as [Heq|Hin].
    + rewrite Heq. destruct (Z.max_spec x z) as [[_ ->]|[_ ->]].
      * apply elem_of_cons; right. apply elem_of_cons; by left.
      * apply elem_of_cons; by left.
    + apply elem_of_cons; right. apply elem_of_cons; by right.
Qed.

Lemma new_item_id_fresh (data : AppState) :
  new_item_id data ∉ map id (wishlist data).
Proof.
  unfold new_item_id.
  destruct (map id (wishlist data)) as [|x l]; [apply not_elem_of_nil|].
  intros Hin. apply py_max_upper in Hin. lia.
Qed.

Lemma id_set_current (it : WishlistItem) (v : Z) : id (set_current it v) = id it.
Proof. reflexivity. Qed.

Lemma ids_apply (m : gmap Z Z) (wl : list WishlistItem) :
  map id (map (apply_to_item m) wl) = map id wl.
Proof.
  induction wl as [|it wl IH]; [done|]. cbn. rewrite IH. f_equal.
  unfold apply_to_item. by destruct (0 <? _).
Qed.

Lemma ids_deposit (tid amt : Z) (wl : list WishlistItem) :
  map id (deposit_loop tid amt wl) = map id wl.
Proof.
  induction wl as [|it wl IH]; [done|]. cbn.
  destruct (id it =? tid); cbn; [done|]. by rewrite IH.
Qed.

Lemma step_unique_ids (a : action) (data : AppState) :
  unique_ids data -> unique_ids (step a data).
Proof.
  unfold unique_ids. intros Hnd.
  destruct a as [i f s e|n t m p now|c now alloc|now tid amt memo]; cbn.
  - done.
  - rewrite map_app. cbn. apply NoDup_app. split; [done|]. split.
    + intros x Hx Hx'. apply list_elem_of_singleton in Hx'. subst x.
      by apply (new_item_id_fresh data).
    + apply NoDup_singleton.
  - destruct alloc as [|a alloc]; [done|]. destruct c; [|done].
    cbn. by rewrite ids_apply.
  - by rewrite ids_deposit.
Qed.

(** C8. A new item gets id 1 on an empty wishlist and otherwise one more
    than the largest id in the wishlist; every action (save profile, add
    item, apply allocation, manual deposit) takes a state with pairwise
    distinct ids to a state with pairwise distinct ids, and so does every
    sequence of actions from the default state. *)
Theorem new_item_id_unique (data : AppState) :
  (wishlist data = [] -> new_item_id data = 1) /\
  (wishlist data <> [] ->
     exists it, it ∈ wishlist data /\
       (forall it', it' ∈ wishlist data -> id it' <= id it) /\
       new_item_id data = id it + 1) /\
  (forall n t m p now, exists item,
     wishlist (add_item n t m p now data) = wishlist data ++ [item] /\
     id item = new_item_id data /\ id item ∉ map id (wishlist data)) /\
  (unique_ids data -> forall a, unique_ids (step a data)) /\
  (forall acts, unique_ids (run acts default_data)).
Proof.
  split; [|split; [|split; [|split]]].
  3: { intros n t m p now. eexists. split; [reflexivity|]. cbn.
    split; [done | apply new_item_id_fresh]. }
  - unfold new_item_id. by intros ->.
  - unfold new_item_id. intros Hne.
    destruct (wishlist data) as [|x wl] eqn:Hwl; [done|]. cbn [map].
    pose proof (py_max_elem (id x) (map id wl)) as Hel.
    change (id x :: map id wl) with (map id (x :: wl)) in Hel.
    apply list_elem_of_fmap in Hel as (it & Hid & Hit).
    exists it. split; [done|]. split; [|by rewrite Hid].
    intros it' Hit'. rewrite <- Hid. apply py_max_upper.
    change (id x :: map id wl) with (map id (x :: wl)).
    apply list_elem_of_fmap. by exists it'.
  - intros Hu a. by apply step_unique_ids.
  - intros acts. unfold run.
    assert (Hgen : forall d, unique_ids d ->
              unique_ids (foldl (fun d a => step a d) d acts)).
    { induction acts as [|a acts IH]; intros d Hd; cbn; [done|].
      apply IH. by apply step_unique_ids. }
    apply Hgen. unfold unique_ids. cbn. apply NoDup_nil_2.
Qed.

Lemma new_item_id_unique_witness :
  let data := mkState (mkProfile 0 0 0 0)
                [mkItem 4 "desk" 300 (Some 3) (Some 0) (Some 2) "t0";
                 mkItem 2 "lamp" 40 (Some 1) (Some 0) (Some 1) "t1"] [] in
  wishlist data <> [] /\ unique_ids data /\
  new_item_id data = 5 /\
  unique_ids (step (AddItem "bike" 900 6 3 "t2") data).
Proof.
  cbn zeta.
  assert (Hne : wishlist (mkState (mkProfile 0 0 0 0)
                [mkItem 4 "desk" 300 (Some 3) (Some 0) (Some 2) "t0";
                 mkItem 2 "lamp" 40 (Some 1) (Some 0) (Some 1) "t1"] []) <> [])
    by (cbn; discriminate).
  assert (Hu : unique_ids (mkState (mkProfile 0 0 0 0)
                [mkItem 4 "desk" 300 (Some 3) (Some 0) (Some 2) "t0";
                 mkItem 2 "lamp" 40 (Some 1) (Some 0) (Some 1) "t1"] [])).
  { unfold unique_ids. cbn. apply NoDup_cons. split.
    - intros H. apply list_elem_of_singleton in H. discriminate.
    - apply NoDup_singleton. }
  split; [exact Hne|]. split; [exact Hu|]. split; [reflexivity|].
  exact (proj1 (proj2 (proj2 (proj2 (new_item_id_unique _)))) Hu
               (AddItem "bike" 900 6 3 "t2")).
Defined.

(** ** Manual deposit *)

Lemma deposit_loop_no_match (tid amt : Z) (wl : list WishlistItem) :
  (forall it, it ∈ wl -> id it <> tid) -> deposit_loop tid amt wl = wl.
Proof.
  induction wl as [|it wl IH]; intros Hno; cbn; [done|].
  destruct (Z.eqb_spec (id it) tid) as [Heq|_].
  - exfalso. apply (Hno it); [apply elem_of_cons; by left | done].
  - f_equal. apply IH. intros it' Hin. apply Hno. apply elem_of_cons; by right.
Qed.

Lemma deposit_loop_first_match (tid amt : Z) (pre post : list WishlistItem)
    (it : WishlistItem) :
  (forall x, x ∈ pre -> id x <> tid) -> id it = tid ->
  deposit_loop tid amt (pre ++ it :: post)
  = pre ++ set_current it (get_current it + amt) :: post.
Proof.
  intros Hpre Hit.
  induction pre as [|x pre IH]; cbn.
  - by rewrite (proj2 (Z.eqb_eq _ _) Hit).
  - destruct (Z.eqb_spec (id x) tid) as [Heq|_].
    + exfalso. apply (Hpre x); [apply elem_of_cons; by left | done].
    + f_equal. apply IH. intros y Hy. apply Hpre. apply elem_of_cons; by right.
Qed.

(** C7. A manual deposit whose id matches no wishlist item leaves the
    wishlist as it was and still appends exactly one [manual_deposit]
    transaction carrying that id, so the log grows by one; when the id
    matches, the amount is added to the [current] of the (first) item with
    that id: an item that had [current = c] has [c + amount] afterwards, an
    item without the key has [amount]; its other keys and every other item
    stay as they were, and the same single transaction is appended. *)
Theorem manual_deposit_ledger (now : string) (target_id amount : Z)
    (memo : string) (data : AppState) :
  let data' := record_manual_deposit now target_id amount memo data in
  transactions data'
    = transactions data ++ [manual_deposit now amount target_id memo] /\
  length (transactions data') = S (length (transactions data)) /\
  profile data' = profile data /\
  ((forall it, it ∈ wishlist data -> id it <> target_id) ->
     wishlist data' = wishlist data) /\
  (forall pre it post,
     wishlist data = pre ++ it :: post ->
     (forall x, x ∈ pre -> id x <> target_id) ->
     id it = target_id ->
     wishlist data'
       = pre
         ++ mkItem (id it) (name it) (target it) (months it)
              (Some (match current it with
                     | Some c => c + amount
                     | None => amount
                     end))
              (priority it) (created it)
         :: post).
Proof.
  cbn zeta. unfold record_manual_deposit; cbn.
  split; [done|]. split; [rewrite length_app; cbn; lia|]. split; [done|].
  split.
  - intros Hno. by apply deposit_loop_no_match.
  - intros pre it post Hwl Hpre Hit. rewrite Hwl.
    rewrite deposit_loop_first_match by done.
    unfold set_current, get_current. by destruct (current it).
Qed.

Lemma manual_deposit_ledger_witness :
  let desk := mkItem 1 "desk" 300 (Some 3) (Some 20) (Some 2) "t0" in
  let lamp := mkItem 2 "lamp" 40 (Some 1) None (Some 1) "t1" in
  let data := mkState (mkProfile 0 0 0 0) [desk; lamp] [] in
  (forall it, it ∈ wishlist data -> id it <> 7) /\
  wishlist (record_manual_deposit "t2" 7 500 "gift" data) = wishlist data /\
  transactions (record_manual_deposit "t2" 7 500 "gift" data)
    = [manual_deposit "t2" 500 7 "gift"] /\
  wishlist (record_manual_deposit "t3" 1 15 "cash" data)
    = [mkItem 1 "desk" 300 (Some 3) (Some 35) (Some 2) "t0"; lamp] /\
  wishlist (record_manual_deposit "t4" 2 15 "cash" data)
    = [desk; mkItem 2 "lamp" 40 (Some 1) (Some 15) (Some 1) "t1"].
Proof.
  cbn zeta.
  assert (Hno : forall it,
            it ∈ [mkItem 1 "desk" 300 (Some 3) (Some 20) (Some 2) "t0";
                  mkItem 2 "lamp" 40 (Some 1) None (Some 1) "t1"] ->
            id it <> 7).
  { intros it Hin.
    apply elem_of_cons in Hin as [->|Hin]; [cbn; lia|].
    apply list_elem_of_singleton in Hin as ->. cbn; lia. }
  split; [exact Hno|].
  pose proof (manual_deposit_ledger "t2" 7 500 "gift"
    (mkState (mkProfile 0 0 0 0)
       [mkItem 1 "desk" 300 (Some 3) (Some 20) (Some 2) "t0";
        mkItem 2 "lamp" 40 (Some 1) None (Some 1) "t1"] [])) as H.
  cbn zeta in H. destruct H as (Htx & _ & _ & Hwl & _).
  split; [exact (Hwl Hno)|]. split; [exact Htx|].
  split.
  - pose proof (manual_deposit_ledger "t3" 1 15 "cash"
      (mkState (mkProfile 0 0 0 0)
         [mkItem 1 "desk" 300 (Some 3) (Some 20) (Some 2) "t0";
          mkItem 2 "lamp" 40 (Some 1) None (Some 1) "t1"] [])) as H1.
    cbn zeta in H1. destruct H1 as (_ & _ & _ & _ & Hhit).
    apply (Hhit [] (mkItem 1 "desk" 300 (Some 3) (Some 20) (Some 2) "t0")
                [mkItem 2 "lamp" 40 (Some 1) None (Some 1) "t1"]).
    + reflexivity.
    + intros x Hx. by apply elem_of_nil in Hx.
    + reflexivity.
  - pose proof (manual_deposit_ledger "t4" 2 15 "cash"
      (mkState (mkProfile 0 0 0 0)
         [mkItem 1 "desk" 300 (Some 3) (Some 20) (Some 2) "t0";
          mkItem 2 "lamp" 40 (Some 1) None (Some 1) "t1"] [])) as H2.
    cbn zeta in H2. destruct H2 as (_ & _ & _ & _ & Hhit).
    apply (Hhit [mkItem 1 "desk" 300 (Some 3) (Some 20) (Some 2) "t0"]
                (mkItem 2 "lamp" 40 (Some 1) None (Some 1) "t1") []).
    + reflexivity.
    + intros x Hx. apply list_elem_of_singleton in Hx as ->. cbn; lia.
    + reflexivity.
Defined.

(** ** Applying the monthly allocation *)

Lemma id_to_assigned_foldl_notin (m0 : gmap Z Z) (alloc : list Allocation)
    (k : Z) :
  k ∉ map alloc_id alloc ->
  foldl (fun m a => <[alloc_id a := assigned a]> m) m0 alloc !! k = m0 !! k.
Proof.
  revert m0. induction alloc as [|a alloc IH]; intros m0 Hk; cbn; [done|].
  cbn in Hk. apply not_elem_of_cons in Hk as [Hne Hk].
  rewrite IH by done. by apply lookup_insert_ne.
Qed.

Lemma id_to_assigned_foldl_nodup (m0 : gmap Z Z) (alloc : list Allocation)
    (a : Allocation) :
  NoDup (map alloc_id alloc) -> a ∈ alloc ->
  foldl (fun m a => <[alloc_id a := assigned a]> m) m0 alloc !! alloc_id a
  = Some (assigned a).
Proof.
  revert m0. induction alloc as [|b alloc IH]; intros m0 Hnd Hin; cbn.
  - by apply elem_of_nil in Hin.
  - cbn in Hnd. apply NoDup_cons in Hnd as [Hb Hnd].
    apply elem_of_cons in Hin as [->|Hin].
    + rewrite id_to_assigned_foldl_notin by done. apply lookup_insert_eq.
    + by apply IH.
Qed.

Lemma id_to_assigned_absent (alloc : list Allocation) (k : Z) :
  k ∉ map alloc_id alloc -> id_to_assigned alloc !! k = None.
Proof.
  intros Hk. unfold id_to_assigned.
  rewrite id_to_assigned_foldl_notin by done. apply lookup_empty.
Qed.

Lemma id_to_assigned_present (alloc : list Allocation) (a : Allocation) :
  NoDup (map alloc_id alloc) -> a ∈ alloc ->
  id_to_assigned alloc !! alloc_id a = Some (assigned a).
Proof. apply id_to_assigned_foldl_nodup. Qed.

Lemma apply_to_item_current (m : gmap Z Z) (it : WishlistItem) :
  get_current (apply_to_item m it) = get_current it + applied_amount m it.
Proof.
  unfold apply_to_item, applied_amount.
  destruct (Z.ltb_spec 0 (default 0 (m !! id it))); cbn; lia.
Qed.

Lemma apply_to_item_id (m : gmap Z Z) (it : WishlistItem) :
  id (apply_to_item m it) = id it.
Proof. unfold apply_to_item. by destruct (0 <? _). Qed.

Lemma apply_to_item_twice (m : gmap Z Z) (it : WishlistItem) :
  get_current (apply_to_item m (apply_to_item m it))
  = get_current it + 2 * applied_amount m it.
Proof.
  rewrite !apply_to_item_current. unfold applied_amount.
  rewrite apply_to_item_id. lia.
Qed.

(** An allocation computed from a wishlist with distinct ids has distinct
    ids itself. *)
Lemma allocate_ids_nodup (usable : Z) (wl : list WishlistItem)
    (alloc : list Allocation) (remaining : Z) :
  NoDup (map id wl) ->
  allocate_to_wishlist usable wl = Ok (alloc, remaining) ->
  NoDup (map alloc_id alloc).
Proof.
  intros Hnd Hrun. apply allocate_trace in Hrun.
  rewrite (loop_trace_ids _ _ _ _ Hrun).
  assert (Hs : NoDup (map id (sorted priority_key wl))).
  { eapply NoDup_Permutation_proper; [|exact Hnd].
    apply Permutation_map, sorted_perm. }
  rewrite <- (take_drop (length alloc) (sorted priority_key wl)), map_app in Hs.
  by apply NoDup_app in Hs as (Hs & _ & _).
Qed.

Lemma lookup_map {A B : Type} (f : A -> B) (l : list A) (i : nat) :
  map f l !! i = f <$> (l !! i).
Proof. exact (list_lookup_fmap f l i). Qed.

(** C6. Applying an allocation result appends one [monthly_alloc]
    transaction holding that result; for every entry with [assigned > 0]
    (entries having pairwise distinct ids, as they have when the result was
    computed from a wishlist with distinct ids)
    the item with the entry's id has its [current] raised by exactly
    [assigned]; an item whose id is not in the result is left as it is.
    Applying the same result a second time raises each [current] by the same
    amount again, so after two applications the change is twice the change
    after one: the operation is not idempotent. *)
Theorem apply_monthly_allocation_adds (now now' : string)
    (alloc : list Allocation) (data : AppState) :
  let data1 := apply_monthly_allocation now alloc data in
  let data2 := apply_monthly_allocation now' alloc data1 in
  transactions data1 = transactions data ++ [monthly_alloc now alloc] /\
  length (wishlist data1) = length (wishlist data) /\
  (NoDup (map alloc_id alloc) ->
   forall a i it,
     a ∈ alloc -> 0 < assigned a ->
     wishlist data !! i = Some it -> id it = alloc_id a ->
     wishlist data1 !! i
       = Some (set_current it (get_current it + assigned a))) /\
  (forall i it,
     wishlist data !! i = Some it -> id it ∉ map alloc_id alloc ->
     wishlist data1 !! i = Some it) /\
  (forall i it,
     wishlist data !! i = Some it ->
     exists it1 it2,
       wishlist data1 !! i = Some it1 /\ wishlist data2 !! i = Some it2 /\
       get_current it2 - get_current it
         = 2 * (get_current it1 - get_current it)) /\
  transactions data2
    = transactions data ++ [monthly_alloc now alloc; monthly_alloc now' alloc] /\
  (forall usable remaining,
     unique_ids data ->
     allocate_to_wishlist usable (wishlist data) = Ok (alloc, remaining) ->
     NoDup (map alloc_id alloc)).
Proof.
  cbn zeta. unfold apply_monthly_allocation; cbn.
  split; [done|]. split; [by rewrite length_map|].
  split; [|split; [|split; [|split]]];
    [| | | |intros usable remaining Hu Hrun; by eapply allocate_ids_nodup].
  - intros Hnd a i it Ha Hpos Hi Hid.
    rewrite lookup_map, Hi. cbn. f_equal.
    unfold apply_to_item. rewrite Hid, (id_to_assigned_present alloc a) by done.
    cbn. by rewrite (proj2 (Z.ltb_lt _ _) Hpos).
  - intros i it Hi Hid.
    rewrite lookup_map, Hi. cbn. f_equal.
    unfold apply_to_item. by rewrite id_to_assigned_absent.
  - intros i it Hi.
    exists (apply_to_item (id_to_assigned alloc) it),
           (apply_to_item (id_to_assigned alloc)
              (apply_to_item (id_to_assigned alloc) it)).
    rewrite !lookup_map, Hi. cbn. split; [done|]. split; [done|].
    rewrite apply_to_item_twice, apply_to_item_current. lia.
  - by rewrite <- app_assoc.
Qed.

Lemma apply_monthly_allocation_adds_witness :
  let alloc := [mkAlloc 2 "lamp" 40 40; mkAlloc 1 "desk" 60 100] in
  let data := mkState (mkProfile 0 0 0 0)
                [mkItem 1 "desk" 300 (Some 3) None (Some 2) "t0";
                 mkItem 2 "lamp" 40 (Some 1) (Some 0) (Some 1) "t1";
                 mkItem 3 "bike" 900 (Some 6) (Some 5) (Some 2) "t2"] [] in
  NoDup (map alloc_id alloc) /\
  wishlist (apply_monthly_allocation "m1" alloc data) !! 0%nat
    = Some (mkItem 1 "desk" 300 (Some 3) (Some 60) (Some 2) "t0") /\
  wishlist (apply_monthly_allocation "m1" alloc data) !! 2%nat
    = Some (mkItem 3 "bike" 900 (Some 6) (Some 5) (Some 2) "t2") /\
  get_current <$> wishlist (apply_monthly_allocation "m2" alloc
                    (apply_monthly_allocation "m1" alloc data))
    = [120; 80; 5].
Proof.
  cbn zeta.
  assert (Hnd : NoDup (map alloc_id
            [mkAlloc 2 "lamp" 40 40; mkAlloc 1 "desk" 60 100])).
  { cbn. apply NoDup_cons. split.
    - intros H. apply list_elem_of_singleton in H. discriminate.
    - apply NoDup_singleton. }
  split; [exact Hnd|].
  pose proof (apply_monthly_allocation_adds "m1" "m2"
    [mkAlloc 2 "lamp" 40 40; mkAlloc 1 "desk" 60 100]
    (mkState (mkProfile 0 0 0 0)
       [mkItem 1 "desk" 300 (Some 3) None (Some 2) "t0";
        mkItem 2 "lamp" 40 (Some 1) (Some 0) (Some 1) "t1";
        mkItem 3 "bike" 900 (Some 6) (Some 5) (Some 2) "t2"] [])) as H.
  cbn zeta in H. destruct H as (_ & _ & Hadd & Hkeep & _ & _ & _).
  split; [|split].
  - apply (Hadd Hnd (mkAlloc 1 "desk" 60 100) 0%nat
             (mkItem 1 "desk" 300 (Some 3) None (Some 2) "t0")).
    + apply elem_of_cons; right. apply elem_of_cons; by left.
    + cbn; lia.
    + reflexivity.
    + reflexivity.
  - apply (Hkeep 2%nat (mkItem 3 "bike" 900 (Some 6) (Some 5) (Some 2) "t2")).
    + reflexivity.
    + cbn. intros Hin.
      apply elem_of_cons in Hin as [Hin|Hin]; [discriminate|].
      apply list_elem_of_singleton in Hin. discriminate.
  - vm_compute. reflexivity.
Defined.

(** * Further results

    Properties of the same code beyond the ones above: where the functions
    are defined, what the allocation looks like as a whole, what the
    handlers keep, and how the parts of one page run fit together. *)

(** ** Where [monthly_need_for_item] is defined *)

Module FloatBounds.
Import Float.

(** A quotient whose dividend is below the largest finite float does not
    overflow. *)
Lemma true_divide_no_overflow (a b : Z) :
  b <> 0 -> Z.abs a < 2 ^ 1024 - 2 ^ 971 ->
  is_ok (true_divide a b) = true.
Proof.
  intros Hb Ha. unfold true_divide.
  rewrite (proj2 (Z.eqb_neq b 0) Hb).
  destruct (Z.eqb_spec a 0) as [|Ha0]; [done|].
  assert (Hn : 0 < Z.abs a) by lia.
  assert (Hd : 0 < Z.abs b) by lia.
  set (n := Z.abs a) in *. set (d := Z.abs b) in *.
  set (e := quot_exponent n d).
  destruct (Z.leb_spec 0 e) as [He|He]; [|done].
  cbn [andb].
  assert (Hfl : e <= Z.log2 n - 52).
  { pose proof (FloatFacts.log2_quot_le n d Hn Hd).
    unfold e, quot_exponent in *. lia. }
  assert (Hlog : Z.log2 n < 1024).
  { apply Z.log2_lt_pow2; [done|]. lia. }
  rewrite (Z.max_l 0 (- e)), (Z.max_r 0 e), Z.pow_0_r, Z.mul_1_r by lia.
  assert (HP : 0 < 2 ^ e) by (apply Z.pow_pos_nonneg; lia).
  assert (HPle : 2 ^ e <= 2 ^ 971) by (apply Z.pow_le_mono_r; lia).
  set (P := 2 ^ e) in *.
  assert (Hq : 0 < d * P) by nia.
  pose proof (FloatFacts.rne_cases n (d * P) Hq) as Hc.
  pose proof (Z.div_mod n (d * P) ltac:(lia)) as Hdm.
  pose proof (Z.mod_pos_bound n (d * P) Hq) as Hr.
  pose proof (Z.div_pos n (d * P) ltac:(lia) Hq) as Hq0.
  set (m := rne n (d * P)) in *.
  set (q1 := n / (d * P)) in *. set (r1 := n mod (d * P)) in *.
  assert (Hm : m * P <= n + P).
  { assert (q1 * P <= n) by nia.
    destruct Hc as [->|[-> _]]; nia. }
  destruct (Z.leb_spec (2 ^ 1024) (m * P)) as [Hov|]; [|done].
  exfalso. lia.
Qed.

End FloatBounds.

Lemma months_or_1_nonzero (it : WishlistItem) : months_or_1 it <> 0.
Proof.
  unfold months_or_1. destruct (months it) as [m|]; [|done].
  by destruct (Z.eqb_spec m 0).
Qed.

Lemma monthly_need_no_zero_division (it : WishlistItem) :
  monthly_need_for_item it <> Raise ZeroDivisionError.
Proof.
  pose proof (months_or_1_nonzero it) as Hm.
  unfold monthly_need_for_item, Float.true_divide. cbn zeta.
  rewrite (proj2 (Z.eqb_neq _ 0) Hm).
  destruct (_ =? 0); [done|]. by destruct (_ && _).
Qed.

(** X1. [monthly_need_for_item] never raises [ZeroDivisionError], whatever
    [months] holds (0 and a missing key are read as 1).  It returns a value
    for every item whose [|target - current|] is below the largest finite
    float, [2^1024 - 2^971]; the only exception it can raise is
    [OverflowError], and only at or beyond that size. *)
Theorem monthly_need_raises_only_overflow (it : WishlistItem) :
  monthly_need_for_item it <> Raise ZeroDivisionError /\
  (Z.abs (target it - get_current it) < 2 ^ 1024 - 2 ^ 971 ->
   exists n, monthly_need_for_item it = Ok n) /\
  (forall e, monthly_need_for_item it = Raise e ->
     e = OverflowError /\
     2 ^ 1024 - 2 ^ 971 <= Z.abs (target it - get_current it)).
Proof.
  pose proof (months_or_1_nonzero it) as Hm.
  pose proof (monthly_need_no_zero_division it) as Hzero.
  assert (Hdef : Z.abs (target it - get_current it) < 2 ^ 1024 - 2 ^ 971 ->
                 exists n, monthly_need_for_item it = Ok n).
  { intros Ha.
    pose proof (FloatBounds.true_divide_no_overflow _ _ Hm Ha) as Hok.
    unfold monthly_need_for_item. cbn zeta.
    destruct (Float.true_divide _ _) as [q|e]; [|discriminate]. by eexists. }
  split; [done|]. split; [done|].
  intros e He. split.
  - destruct e; [by rewrite He in Hzero | done].
  - destruct (Z.lt_ge_cases (Z.abs (target it - get_current it))
                            (2 ^ 1024 - 2 ^ 971)) as [Hlt|Hge]; [|done].
    destruct (Hdef Hlt) as [n Hn]. by rewrite Hn in He.
Qed.

Lemma monthly_need_raises_only_overflow_witness :
  let it := mkItem 1 "house" (2 ^ 1000) (Some 0) (Some 7) None "t0" in
  let huge := mkItem 2 "moon" (2 ^ 1024) None None None "t1" in
  Z.abs (target it - get_current it) < 2 ^ 1024 - 2 ^ 971 /\
  (exists n, monthly_need_for_item it = Ok n) /\
  monthly_need_for_item huge = Raise OverflowError /\
  2 ^ 1024 - 2 ^ 971 <= Z.abs (target huge - get_current huge).
Proof.
  cbn zeta.
  assert (Hb : Z.abs (target (mkItem 1 "house" (2 ^ 1000) (Some 0) (Some 7)
                                None "t0")
                      - get_current (mkItem 1 "house" (2 ^ 1000) (Some 0)
                                       (Some 7) None "t0"))
               < 2 ^ 1024 - 2 ^ 971) by (vm_compute; reflexivity).
  assert (Hr : monthly_need_for_item
                 (mkItem 2 "moon" (2 ^ 1024) None None None "t1")
               = Raise OverflowError) by (vm_compute; reflexivity).
  split; [exact Hb|].
  split; [exact (proj1 (proj2 (monthly_need_raises_only_overflow _)) Hb)|].
  split; [exact Hr|].
  exact (proj2 (proj2 (proj2 (monthly_need_raises_only_overflow _)) _ Hr)).
Defined.

Lemma monthly_need_floor_bounds (it : WishlistItem) :
  1 <= months_or_1 it -> 0 <= target it - get_current it < 2 ^ 53 ->
  exists n, monthly_need_for_item it = Ok n /\
    n * months_or_1 it <= target it - get_current it
      < (n + 1) * months_or_1 it.
Proof.
  intros Hm Ha.
  rewrite monthly_need_small by lia.
  eexists. split; [reflexivity|].
  rewrite Z.quot_div_nonneg by lia.
  pose proof (Z.div_mod (target it - get_current it) (months_or_1 it)
                ltac:(lia)) as Hdm.
  pose proof (Z.mod_pos_bound (target it - get_current it) (months_or_1 it)
                ltac:(lia)) as Hr.
  pose proof (Z.div_pos (target it - get_current it) (months_or_1 it)
                ltac:(lia) ltac:(lia)) as Hq.
  set (q := (target it - get_current it) / months_or_1 it) in *.
  set (r := (target it - get_current it) mod months_or_1 it) in *.
  rewrite Z.max_r by done. nia.
Qed.

(** X2. For an item that is not yet at its target, with [months] at least 1
    (or missing) and less than [2^53] left to save, the monthly need is the
    largest [n] with [n * months <= target - current].  So the need is 0,
    although the target is not met, exactly when less than [months] is
    left. *)
Theorem monthly_need_floor (it : WishlistItem) :
  let a := target it - get_current it in
  let m := months_or_1 it in
  1 <= m -> 0 <= a < 2 ^ 53 ->
  exists n, monthly_need_for_item it = Ok n /\
    n * m <= a < (n + 1) * m /\
    (n = 0 <-> a < m).
Proof.
  cbn zeta. intros Hm Ha.
  destruct (monthly_need_floor_bounds it Hm Ha) as (n & Hn & Hb).
  pose proof (monthly_need_nonneg _ _ Hn) as Hn0.
  exists n. split; [done|]. split; [done|]. split; intros H; nia.
Qed.

Lemma monthly_need_floor_witness :
  let it := mkItem 3 "book" 30000 (Some 4) (Some 29998) (Some 3) "t1" in
  1 <= months_or_1 it /\
  0 <= target it - get_current it < 2 ^ 53 /\
  target it - get_current it < months_or_1 it /\
  monthly_need_for_item it = Ok 0.
Proof.
  cbn zeta.
  assert (Hm : 1 <= months_or_1
                      (mkItem 3 "book" 30000 (Some 4) (Some 29998) (Some 3)
                         "t1")) by (vm_compute; discriminate).
  assert (Ha : 0 <= target (mkItem 3 "book" 30000 (Some 4) (Some 29998)
                              (Some 3) "t1")
                    - get_current (mkItem 3 "book" 30000 (Some 4) (Some 29998)
                                     (Some 3) "t1") < 2 ^ 53)
    by (split; vm_compute; [discriminate | reflexivity]).
  assert (Hlt : target (mkItem 3 "book" 30000 (Some 4) (Some 29998)
                          (Some 3) "t1")
                - get_current (mkItem 3 "book" 30000 (Some 4) (Some 29998)
                                 (Some 3) "t1")
                < months_or_1 (mkItem 3 "book" 30000 (Some 4) (Some 29998)
                                 (Some 3) "t1")) by (vm_compute; reflexivity).
  split; [exact Hm|]. split; [exact Ha|]. split; [exact Hlt|].
  destruct (monthly_need_floor _ Hm Ha) as (n & Hn & _ & Hz).
  rewrite Hn. exact (f_equal Ok (proj2 Hz Hlt)).
Defined.

(** ** The shape of an allocation *)

Lemma loop_trace_nil_iff (items : list WishlistItem) (remaining : Z)
    (alloc : list Allocation) (remaining' : Z) :
  loop_trace items remaining alloc remaining' ->
  (alloc = [] <-> items = []) /\ (length alloc <= length items)%nat.
Proof.
  induction 1 as [r|it rest r n Hn Hle|it rest r n new r' Hn Hgt _ IH]; cbn.
  - done.
  - split; [done | lia].
  - split; [done | lia].
Qed.

Lemma sorted_nil_iff {A : Type} (key : A -> Z) (l : list A) :
  sorted key l = [] <-> l = [].
Proof.
  split; [|by intros ->].
  intros Hs. apply Permutation_nil_r. rewrite <- Hs. symmetry. apply sorted_perm.
Qed.

(** X3. On an empty wishlist the allocation is the empty list and the whole
    budget remains.  On any other wishlist the list returned is not empty,
    whatever the budget: the preview table and the apply button, both
    guarded by [if alloc:], are there exactly when the wishlist has an item.
    The list never has more records than the wishlist has items. *)
Theorem allocation_empty_iff (usable : Z) (wl : list WishlistItem) :
  allocate_to_wishlist usable [] = Ok ([], usable) /\
  (forall alloc remaining,
     allocate_to_wishlist usable wl = Ok (alloc, remaining) ->
     (alloc = [] <-> wl = []) /\ (length alloc <= length wl)%nat).
Proof.
  split; [done|].
  intros alloc remaining Hrun. apply allocate_trace in Hrun.
  apply loop_trace_nil_iff in Hrun as [Hnil Hlen].
  rewrite sorted_nil_iff in Hnil. split; [done|].
  by rewrite (Permutation_length (sorted_perm priority_key wl)) in Hlen.
Qed.

Lemma allocation_empty_iff_witness :
  let wl := [mkItem 1 "desk" 0 (Some 1) (Some 0) (Some 2) "t0"] in
  allocate_to_wishlist (-5) wl = Ok ([mkAlloc 1 "desk" (-5) 0], 0) /\
  ([mkAlloc 1 "desk" (-5) 0] = [] <-> wl = []).
Proof.
  cbn zeta.
  assert (Hrun : allocate_to_wishlist (-5)
                   [mkItem 1 "desk" 0 (Some 1) (Some 0) (Some 2) "t0"]
                 = Ok ([mkAlloc 1 "desk" (-5) 0], 0))
    by (vm_compute; reflexivity).
  split; [exact Hrun|].
  exact (proj1 (proj2 (allocation_empty_iff (-5) _) _ _ Hrun)).
Defined.

Lemma loop_trace_closed_form (items : list WishlistItem) (remaining : Z)
    (alloc : list Allocation) (remaining' : Z) :
  loop_trace items remaining alloc remaining' ->
  forall (i : nat) a, alloc !! i = Some a ->
    assigned a = Z.min (need a) (remaining - sum_Z (map need (take i alloc))) /\
    (S i < length alloc -> assigned a = need a)%nat.
Proof.
  induction 1 as [r|it rest r n Hn Hle|it rest r n new r' Hn Hgt _ IH];
    intros i a Hi.
  - done.
  - destruct i as [|i]; [|done]. injection Hi as <-. cbn.
    split; [f_equal; lia | lia].
  - destruct i as [|i].
    + injection Hi as <-. cbn. split; [f_equal; lia | lia].
    + cbn in Hi. destruct (IH i a Hi) as [Hmin Hfull].
      split.
      * rewrite Hmin. cbn. unfold sum_Z. cbn. f_equal. lia.
      * cbn. intros Hlt. apply Hfull. lia.
Qed.

Lemma loop_trace_bounds (items : list WishlistItem) (remaining : Z)
    (alloc : list Allocation) (remaining' : Z) :
  loop_trace items remaining alloc remaining' -> 0 <= remaining ->
  Forall (fun a => 0 <= assigned a <= need a) alloc.
Proof.
  induction 1 as [r|it rest r n Hn Hle|it rest r n new r' Hn Hgt _ IH];
    intros Hr.
  - constructor.
  - apply monthly_need_nonneg in Hn.
    constructor; [cbn; lia | constructor].
  - apply monthly_need_nonneg in Hn.
    constructor; [cbn; lia|]. apply IH. lia.
Qed.

(** X4. The allocation is a greedy fill.  The record in position [i] gets
    the smaller of its need and what the needs of the records before it
    leave of the budget; every record but the last one is funded in full, so
    at most one item, the last one listed, is funded in part.  With a
    non-negative budget no record gets less than 0 or more than its need. *)
Theorem allocation_greedy_fill (usable : Z) (wl : list WishlistItem)
    (alloc : list Allocation) (remaining : Z) :
  allocate_to_wishlist usable wl = Ok (alloc, remaining) ->
  (forall (i : nat) a, alloc !! i = Some a ->
     assigned a = Z.min (need a) (usable - sum_Z (map need (take i alloc))) /\
     (S i < length alloc -> assigned a = need a)%nat) /\
  (0 <= usable -> Forall (fun a => 0 <= assigned a <= need a) alloc).
Proof.
  intros Hrun. apply allocate_trace in Hrun. split.
  - by eapply loop_trace_closed_form.
  - by eapply loop_trace_bounds.
Qed.

Lemma allocation_greedy_fill_witness :
  let wl := [mkItem 1 "desk" 100 (Some 1) (Some 0) (Some 2) "t0";
             mkItem 2 "lamp" 50 (Some 1) (Some 0) (Some 1) "t1";
             mkItem 3 "bike" 80 (Some 1) (Some 0) (Some 2) "t2"] in
  let alloc := [mkAlloc 2 "lamp" 50 50; mkAlloc 1 "desk" 100 100;
                mkAlloc 3 "bike" 40 80] in
  allocate_to_wishlist 190 wl = Ok (alloc, 0) /\
  0 <= 190 /\
  assigned (mkAlloc 1 "desk" 100 100) = need (mkAlloc 1 "desk" 100 100) /\
  Forall (fun a => 0 <= assigned a <= need a) alloc.
Proof.
  cbn zeta.
  assert (Hrun : allocate_to_wishlist 190
            [mkItem 1 "desk" 100 (Some 1) (Some 0) (Some 2) "t0";
             mkItem 2 "lamp" 50 (Some 1) (Some 0) (Some 1) "t1";
             mkItem 3 "bike" 80 (Some 1) (Some 0) (Some 2) "t2"]
          = Ok ([mkAlloc 2 "lamp" 50 50; mkAlloc 1 "desk" 100 100;
                 mkAlloc 3 "bike" 40 80], 0))
    by (vm_compute; reflexivity).
  assert (Hpos : 0 <= 190) by lia.
  destruct (allocation_greedy_fill _ _ _ _ Hrun) as [Hfill Hbounds].
  split; [exact Hrun|]. split; [exact Hpos|]. split.
  - apply (Hfill 1%nat (mkAlloc 1 "desk" 100 100)); [reflexivity | cbn; lia].
  - exact (Hbounds Hpos).
Defined.

Lemma loop_trace_leftover (items : list WishlistItem) (remaining : Z)
    (alloc : list Allocation) (remaining' : Z) :
  loop_trace items remaining alloc remaining' -> 0 < remaining' ->
  Forall2 (fun it a => alloc_id a = id it /\ assigned a = need a /\
                       monthly_need_for_item it = Ok (assigned a))
          items alloc /\
  remaining' = remaining - sum_Z (map assigned alloc).
Proof.
  induction 1 as [r|it rest r n Hn Hle|it rest r n new r' Hn Hgt _ IH];
    intros Hr'.
  - split; [constructor | cbn; lia].
  - lia.
  - destruct (IH Hr') as [Hall Hsum]. split.
    + constructor; [|done]. cbn. rewrite Hn.
      repeat split; [lia | f_equal; lia].
    + rewrite Hsum. unfold sum_Z. cbn. lia.
Qed.

(** X5. Money is left over only when nothing more was needed: if the
    remaining budget returned is positive, then every item of the wishlist
    has a record and each record is funded with the item's full monthly
    need. *)
Theorem allocation_leftover_all_funded (usable : Z) (wl : list WishlistItem)
    (alloc : list Allocation) (remaining : Z) :
  allocate_to_wishlist usable wl = Ok (alloc, remaining) ->
  0 < remaining ->
  length alloc = length wl /\
  remaining = usable - sum_Z (map assigned alloc) /\
  (forall it, it ∈ wl ->
     exists a, a ∈ alloc /\ alloc_id a = id it /\
       monthly_need_for_item it = Ok (assigned a)).
Proof.
  intros Hrun Hrem. apply allocate_trace in Hrun.
  destruct (loop_trace_leftover _ _ _ _ Hrun Hrem) as [Hall Hsum].
  split; [|split; [done|]].
  - rewrite <- (Forall2_length _ _ _ Hall).
    apply Permutation_length, sorted_perm.
  - intros it Hit.
    rewrite <- (sorted_perm priority_key wl) in Hit.
    apply list_elem_of_lookup in Hit as [i Hi].
    destruct (Forall2_lookup_l _ _ _ _ _ Hall Hi) as (a & Ha & Hid & _ & Hn).
    exists a. split; [|done]. apply list_elem_of_lookup. by exists i.
Qed.

Lemma allocation_leftover_all_funded_witness :
  let wl := [mkItem 1 "desk" 100 (Some 1) (Some 0) (Some 2) "t0";
             mkItem 2 "lamp" 50 (Some 1) (Some 0) (Some 1) "t1"] in
  allocate_to_wishlist 400 wl
    = Ok ([mkAlloc 2 "lamp" 50 50; mkAlloc 1 "desk" 100 100], 250) /\
  0 < 250 /\
  250 = 400 - sum_Z [50; 100].
Proof.
  cbn zeta.
  assert (Hrun : allocate_to_wishlist 400
            [mkItem 1 "desk" 100 (Some 1) (Some 0) (Some 2) "t0";
             mkItem 2 "lamp" 50 (Some 1) (Some 0) (Some 1) "t1"]
          = Ok ([mkAlloc 2 "lamp" 50 50; mkAlloc 1 "desk" 100 100], 250))
    by (vm_compute; reflexivity).
  assert (Hpos : 0 < 250) by lia.
  split; [exact Hrun|]. split; [exact Hpos|].
  exact (proj1 (proj2 (allocation_leftover_all_funded _ _ _ _ Hrun Hpos))).
Defined.

Lemma NoDup_map_inj_on {A B : Type} (f : A -> B) (l : list A) (x y : A) :
  NoDup (map f l) -> x ∈ l -> y ∈ l -> f x = f y -> x = y.
Proof.
  induction l as [|z l IH]; intros Hnd Hx Hy Hf; [by apply elem_of_nil in Hx|].
  cbn in Hnd. apply NoDup_cons in Hnd as [Hz Hnd].
  apply elem_of_cons in Hx as [->|Hx]; apply elem_of_cons in Hy as [->|Hy].
  - done.
  - exfalso. apply Hz. rewrite Hf. apply list_elem_of_fmap. by exists y.
  - exfalso. apply Hz. rewrite <- Hf. apply list_elem_of_fmap. by exists x.
  - by apply IH.
Qed.

(** X6. No item is passed over for one of lower priority: when the ids of
    the wishlist are distinct, every item that has a record in the result
    has a priority key no larger than that of any item that has none. *)
Theorem allocation_respects_priority (usable : Z) (wl : list WishlistItem)
    (alloc : list Allocation) (remaining : Z) :
  NoDup (map id wl) ->
  allocate_to_wishlist usable wl = Ok (alloc, remaining) ->
  forall x y, x ∈ wl -> y ∈ wl ->
    id x ∈ map alloc_id alloc -> id y ∉ map alloc_id alloc ->
    priority_key x <= priority_key y.
Proof.
  intros Hnd Hrun x y Hx Hy Hin Hout. apply allocate_trace in Hrun.
  rewrite (loop_trace_ids _ _ _ _ Hrun) in Hin, Hout.
  pose proof (sorted_sorted priority_key wl) as Hsorted.
  pose proof (sorted_perm priority_key wl) as Hperm.
  set (s := sorted priority_key wl) in *. set (k := length alloc) in *.
  rewrite <- (take_drop k s) in Hsorted.
  assert (Hx' : x ∈ take k s).
  { apply list_elem_of_fmap in Hin as (x' & Hid & Hx').
    assert (x' ∈ wl).
    { rewrite <- Hperm, <- (take_drop k s). apply elem_of_app. by left. }
    by rewrite (NoDup_map_inj_on id wl x x' Hnd). }
  assert (Hy' : y ∈ drop k s).
  { rewrite <- Hperm, <- (take_drop k s) in Hy.
    apply elem_of_app in Hy as [Hy|Hy]; [|done].
    exfalso. apply Hout. apply list_elem_of_fmap. by exists y. }
  exact (StronglySorted_app_1_elem_of _ _ _ _ _ Hsorted Hx' Hy').
Qed.

Lemma allocation_respects_priority_witness :
  let a := mkItem 1 "desk" 100 (Some 1) (Some 0) (Some 2) "t0" in
  let b := mkItem 2 "lamp" 50 (Some 1) (Some 0) (Some 1) "t1" in
  let c := mkItem 3 "bike" 80 (Some 1) (Some 0) None "t2" in
  NoDup (map id [a; b; c]) /\
  allocate_to_wishlist 60 [a; b; c]
    = Ok ([mkAlloc 2 "lamp" 50 50; mkAlloc 1 "desk" 10 100], 0) /\
  priority_key a <= priority_key c.
Proof.
  cbn zeta.
  assert (Hnd : NoDup (map id
      [mkItem 1 "desk" 100 (Some 1) (Some 0) (Some 2) "t0";
       mkItem 2 "lamp" 50 (Some 1) (Some 0) (Some 1) "t1";
       mkItem 3 "bike" 80 (Some 1) (Some 0) None "t2"])).
  { cbn. repeat (apply NoDup_cons; split); try apply NoDup_nil_2;
      rewrite ?elem_of_cons, ?elem_of_nil; intros H;
      repeat (destruct H as [H|H]; try discriminate); done. }
  assert (Hrun : allocate_to_wishlist 60
      [mkItem 1 "desk" 100 (Some 1) (Some 0) (Some 2) "t0";
       mkItem 2 "lamp" 50 (Some 1) (Some 0) (Some 1) "t1";
       mkItem 3 "bike" 80 (Some 1) (Some 0) None "t2"]
    = Ok ([mkAlloc 2 "lamp" 50 50; mkAlloc 1 "desk" 10 100], 0))
    by (vm_compute; reflexivity).
  split; [exact Hnd|]. split; [exact Hrun|].
  apply (allocation_respects_priority _ _ _ _ Hnd Hrun).
  - apply elem_of_cons; by left.
  - apply elem_of_cons; right. apply elem_of_cons; right.
    apply elem_of_cons; by left.
  - cbn. apply elem_of_cons; right. apply elem_of_cons; by left.
  - cbn. rewrite !elem_of_cons, elem_of_nil.
    intros H; repeat (destruct H as [H|H]; try discriminate); done.
Defined.

(** ** One page run: usable cash, preview, apply *)

Lemma sum_Z_nonneg (l : list Z) : Forall (fun z => 0 <= z) l -> 0 <= sum_Z l.
Proof.
  induction 1 as [|z l Hz _ IH]; cbn; [lia|]. unfold sum_Z in IH. lia.
Qed.

Lemma sum_Z_zero (l : list Z) : 0 <= sum_Z l -> sum_Z l <= 0 ->
  Forall (fun z => 0 <= z) l -> Forall (fun z => z = 0) l.
Proof.
  intros _ Hle Hall. induction Hall as [|z l Hz Hall IH]; [constructor|].
  pose proof (sum_Z_nonneg l Hall) as Hl. unfold sum_Z in *. cbn in Hle.
  constructor; [lia|]. apply IH. lia.
Qed.

Lemma preview_sum (data : AppState) (alloc : list Allocation)
    (remaining : Z) :
  preview data = Ok (alloc, remaining) ->
  sum_Z (map assigned alloc) + remaining = calculate_usable (profile data).
Proof.
  unfold preview. cbn zeta. intros Hrun. apply allocate_trace in Hrun.
  apply budget_trace_sum. by eapply loop_trace_budget.
Qed.

(** X7. The preview of a page run hands out only what the profile leaves:
    the assigned amounts and the remaining budget add up to
    [calculate_usable(profile)], none of them is negative, the assigned
    amounts together with the three commitments never exceed the income when
    the income covers the commitments, and nothing at all is assigned when
    it does not. *)
Theorem preview_within_usable (data : AppState) (alloc : list Allocation)
    (remaining : Z) :
  preview data = Ok (alloc, remaining) ->
  let p := profile data in
  let commitments := fixed_expenses p + saving_invest p + emergency p in
  sum_Z (map assigned alloc) + remaining = calculate_usable p /\
  0 <= remaining /\
  Forall (fun a => 0 <= assigned a <= need a) alloc /\
  (commitments <= income p ->
   sum_Z (map assigned alloc) + commitments <= income p) /\
  (income p <= commitments -> Forall (fun a => assigned a = 0) alloc).
Proof.
  unfold preview. cbn zeta. intros Hrun.
  assert (Hu : 0 <= calculate_usable (profile data))
    by (unfold calculate_usable; lia).
  apply allocate_trace in Hrun.
  pose proof (loop_trace_budget _ _ _ _ Hrun) as Hb.
  pose proof (budget_trace_sum _ _ _ Hb) as Hsum.
  pose proof (budget_trace_nonneg _ _ _ Hb Hu) as Hrem.
  pose proof (loop_trace_bounds _ _ _ _ Hrun Hu) as Hbounds.
  split; [done|]. split; [done|]. split; [done|]. split.
  - intros Hc. unfold calculate_usable in Hsum. lia.
  - intros Hc.
    assert (Hnn : Forall (fun z => 0 <= z) (map assigned alloc)).
    { apply Forall_fmap. eapply Forall_impl; [exact Hbounds|].
      cbn. intros a Ha. lia. }
    pose proof (sum_Z_nonneg _ Hnn) as H0.
    assert (Hle : sum_Z (map assigned alloc) <= 0)
      by (unfold calculate_usable in Hsum; lia).
    pose proof (sum_Z_zero _ H0 Hle Hnn) as Hz.
    by apply Forall_fmap in Hz.
Qed.

Lemma preview_within_usable_witness :
  let data := mkState (mkProfile 1000 300 550 60)
                [mkItem 1 "desk" 100 (Some 1) (Some 0) (Some 2) "t0";
                 mkItem 2 "lamp" 50 (Some 1) (Some 0) (Some 1) "t1"] [] in
  preview data = Ok ([mkAlloc 2 "lamp" 50 50; mkAlloc 1 "desk" 40 100], 0) /\
  300 + 550 + 60 <= 1000 /\
  sum_Z [50; 40] + (300 + 550 + 60) <= 1000.
Proof.
  cbn zeta.
  assert (Hrun : preview (mkState (mkProfile 1000 300 550 60)
                [mkItem 1 "desk" 100 (Some 1) (Some 0) (Some 2) "t0";
                 mkItem 2 "lamp" 50 (Some 1) (Some 0) (Some 1) "t1"] [])
          = Ok ([mkAlloc 2 "lamp" 50 50; mkAlloc 1 "desk" 40 100], 0))
    by (vm_compute; reflexivity).
  assert (Hc : 300 + 550 + 60 <= 1000) by lia.
  split; [exact Hrun|]. split; [exact Hc|].
  pose proof (preview_within_usable _ _ _ Hrun) as H. cbn zeta in H.
  exact (proj1 (proj2 (proj2 (proj2 H))) Hc).
Defined.

(** What the dict built from an allocation of the same wishlist gives for
    an item: the amount of the item's own record, or nothing. *)
Lemma applied_amount_record (usable : Z) (wl : list WishlistItem)
    (alloc : list Allocation) (remaining : Z) (it : WishlistItem) :
  NoDup (map id wl) -> 0 <= usable ->
  allocate_to_wishlist usable wl = Ok (alloc, remaining) ->
  it ∈ wl ->
  (exists a, a ∈ alloc /\ alloc_id a = id it /\
     monthly_need_for_item it = Ok (need a) /\
     0 <= assigned a <= need a /\
     applied_amount (id_to_assigned alloc) it = assigned a) \/
  ((id it ∉ map alloc_id alloc) /\
   applied_amount (id_to_assigned alloc) it = 0).
Proof.
  intros Hnd Hu Hrun Hit.
  pose proof (allocate_ids_nodup _ _ _ _ Hnd Hrun) as Hnda.
  apply allocate_trace in Hrun.
  destruct (decide (id it ∈ map alloc_id alloc)) as [Hin|Hout].
  - left. apply list_elem_of_fmap in Hin as (a & Hid & Ha).
    exists a. split; [done|]. split; [done|].
    pose proof (loop_trace_prefix _ _ _ _ Hrun) as Hpre.
    pose proof (loop_trace_bounds _ _ _ _ Hrun Hu) as Hb.
    rewrite Forall_forall in Hb. specialize (Hb a Ha).
    pose proof Ha as Ha'. apply list_elem_of_lookup in Ha' as [i Hi].
    destruct (Forall2_lookup_r _ _ _ _ _ Hpre Hi) as (x & Hx & Hxid & _ & Hxn).
    assert (Hxwl : x ∈ wl).
    { rewrite <- (sorted_perm priority_key wl).
      apply (subseteq_take (length alloc) (sorted priority_key wl)).
      apply list_elem_of_lookup. by exists i. }
    assert (x = it) as ->.
    { apply (NoDup_map_inj_on id wl); [done..|]. congruence. }
    split; [done|]. split; [done|].
    unfold applied_amount. rewrite Hid.
    rewrite (id_to_assigned_present alloc a) by done. cbn. lia.
  - right. split; [done|].
    unfold applied_amount. by rewrite id_to_assigned_absent.
Qed.

Lemma apply_handler_lookup (clicked : bool) (now : string)
    (alloc : list Allocation) (data : AppState) (i : nat)
    (it : WishlistItem) :
  wishlist data !! i = Some it ->
  wishlist (apply_handler clicked now alloc data) !! i = Some it \/
  wishlist (apply_handler clicked now alloc data) !! i
    = Some (apply_to_item (id_to_assigned alloc) it).
Proof.
  intros Hi. unfold apply_handler.
  destruct alloc as [|a alloc]; [by left|].
  destruct clicked; [|by left].
  right. cbn. by rewrite lookup_map, Hi.
Qed.

Lemma static_apply_to_item (m : gmap Z Z) (it : WishlistItem) :
  static (apply_to_item m it) = static it.
Proof. unfold apply_to_item. by destruct (0 <? _). Qed.

(** X8. Applying the allocation that the same page run computed never takes
    an item past its target.  In a state with distinct ids, an item with
    [months] at least 1 (or missing) and [|target - current| < 2^53] keeps
    its place and its other keys, its [current] does not go down, and it
    ends no higher than the larger of its old [current] and its [target]. *)
Theorem apply_page_never_overshoots (clicked : bool) (now : string)
    (data data' : AppState) :
  unique_ids data ->
  apply_page clicked now data = Ok data' ->
  forall (i : nat) it,
    wishlist data !! i = Some it ->
    1 <= months_or_1 it ->
    Z.abs (target it - get_current it) < 2 ^ 53 ->
    exists it',
      wishlist data' !! i = Some it' /\ static it' = static it /\
      get_current it <= get_current it'
        <= Z.max (get_current it) (target it).
Proof.
  intros Hu Hpage i it Hi Hm Hsmall.
  unfold apply_page in Hpage.
  destruct (preview data) as [[alloc rem]|e] eqn:Hprev; [|discriminate].
  cbn in Hpage. injection Hpage as <-.
  destruct (apply_handler_lookup clicked now alloc data i it Hi) as [->| ->].
  { exists it. split; [done|]. split; [done|]. lia. }
  eexists. split; [reflexivity|]. split; [apply static_apply_to_item|].
  rewrite apply_to_item_current.
  assert (Hit : it ∈ wishlist data)
    by (apply list_elem_of_lookup; by exists i).
  assert (Hu0 : 0 <= calculate_usable (profile data))
    by (unfold calculate_usable; lia).
  destruct (applied_amount_record _ _ _ _ it Hu Hu0 Hprev Hit)
    as [(a & _ & _ & Hn & Hb & ->)|[_ ->]]; [|lia].
  rewrite monthly_need_small in Hn by done. injection Hn as Hn.
  destruct (Z.le_gt_cases 0 (target it - get_current it)) as [Hpos|Hneg].
  - rewrite Z.quot_div_nonneg in Hn by lia.
    assert ((target it - get_current it) / months_or_1 it
            <= target it - get_current it).
    { apply Z.div_le_upper_bound; [lia | nia]. }
    lia.
  - pose proof (Z.quot_opp_l (target it - get_current it) (months_or_1 it)
                  ltac:(lia)) as Hopp.
    pose proof (Z.quot_pos (- (target it - get_current it)) (months_or_1 it)
                  ltac:(lia) ltac:(lia)) as Hq.
    lia.
Qed.

Lemma apply_page_never_overshoots_witness :
  let data := mkState (mkProfile 1000 300 550 60)
                [mkItem 1 "desk" 100 (Some 3) (Some 95) (Some 2) "t0";
                 mkItem 2 "lamp" 50 (Some 1) (Some 0) (Some 1) "t1"] [] in
  let it := mkItem 1 "desk" 100 (Some 3) (Some 95) (Some 2) "t0" in
  unique_ids data /\
  1 <= months_or_1 it /\ Z.abs (target it - get_current it) < 2 ^ 53 /\
  exists data' it',
    apply_page true "m1" data = Ok data' /\
    wishlist data' !! 0%nat = Some it' /\
    get_current it' <= Z.max 95 100.
Proof.
  cbn zeta.
  assert (Hu : unique_ids (mkState (mkProfile 1000 300 550 60)
                [mkItem 1 "desk" 100 (Some 3) (Some 95) (Some 2) "t0";
                 mkItem 2 "lamp" 50 (Some 1) (Some 0) (Some 1) "t1"] [])).
  { unfold unique_ids. cbn. apply NoDup_cons. split.
    - intros H. apply list_elem_of_singleton in H. discriminate.
    - apply NoDup_singleton. }
  assert (Hm : 1 <= months_or_1
                      (mkItem 1 "desk" 100 (Some 3) (Some 95) (Some 2) "t0"))
    by (vm_compute; discriminate).
  assert (Hs : Z.abs (target (mkItem 1 "desk" 100 (Some 3) (Some 95) (Some 2)
                                "t0")
                      - get_current (mkItem 1 "desk" 100 (Some 3) (Some 95)
                                       (Some 2) "t0")) < 2 ^ 53)
    by (vm_compute; reflexivity).
  split; [exact Hu|]. split; [exact Hm|]. split; [exact Hs|].
  destruct (apply_page true "m1" (mkState (mkProfile 1000 300 550 60)
                [mkItem 1 "desk" 100 (Some 3) (Some 95) (Some 2) "t0";
                 mkItem 2 "lamp" 50 (Some 1) (Some 0) (Some 1) "t1"] []))
    as [data'|e] eqn:Hpage; [|vm_compute in Hpage; discriminate].
  destruct (apply_page_never_overshoots _ _ _ _ Hu Hpage 0%nat _ eq_refl Hm Hs)
    as (it' & Hit' & _ & Hle).
  exists data', it'. split; [reflexivity|]. split; [exact Hit'|].
  exact (proj2 Hle).
Defined.

Lemma sum_Z_app (l k : list Z) : sum_Z (l ++ k) = sum_Z l + sum_Z k.
Proof.
  unfold sum_Z. induction l as [|z l IH]; cbn; [done|]. rewrite IH. lia.
Qed.

Lemma sum_Z_perm (l k : list Z) : l ≡ₚ k -> sum_Z l = sum_Z k.
Proof.
  unfold sum_Z.
  induction 1 as [|z l k _ IH|y z l|l k j _ IH1 _ IH2]; cbn;
    [done | by rewrite IH | lia | congruence].
Qed.

Lemma sum_Z_Forall2 {A B : Type} (f : A -> Z) (g : B -> Z)
    (l : list A) (k : list B) :
  Forall2 (fun x y => f x = g y) l k -> sum_Z (map f l) = sum_Z (map g k).
Proof.
  unfold sum_Z. induction 1 as [|x y l k Hxy _ IH]; cbn; [done|]. by rewrite Hxy, IH.
Qed.

Lemma sum_Z_all_zero {A : Type} (f : A -> Z) (l : list A) :
  Forall (fun x => f x = 0) l -> sum_Z (map f l) = 0.
Proof.
  unfold sum_Z. induction 1 as [|x l Hx _ IH]; cbn; [done|]. by rewrite Hx, IH.
Qed.

(** Over the whole wishlist, the dict of an allocation of that wishlist
    hands out exactly the assigned amounts. *)
Lemma applied_amount_total (usable : Z) (wl : list WishlistItem)
    (alloc : list Allocation) (remaining : Z) :
  NoDup (map id wl) -> 0 <= usable ->
  allocate_to_wishlist usable wl = Ok (alloc, remaining) ->
  sum_Z (map (applied_amount (id_to_assigned alloc)) wl)
  = sum_Z (map assigned alloc).
Proof.
  intros Hnd Hu Hrun.
  pose proof (allocate_ids_nodup _ _ _ _ Hnd Hrun) as Hnda.
  apply allocate_trace in Hrun.
  pose proof (loop_trace_prefix _ _ _ _ Hrun) as Hpre.
  pose proof (loop_trace_bounds _ _ _ _ Hrun Hu) as Hb.
  pose proof (loop_trace_ids _ _ _ _ Hrun) as Hids.
  pose proof (sorted_perm priority_key wl) as Hperm.
  set (s := sorted priority_key wl) in *. set (k := length alloc) in *.
  rewrite (sum_Z_perm _ (map (applied_amount (id_to_assigned alloc)) s))
    by (apply Permutation_map; by symmetry).
  rewrite <- (take_drop k s), map_app, sum_Z_app.
  assert (Hnds : NoDup (map id (take k s) ++ map id (drop k s))).
  { rewrite <- map_app, take_drop.
    eapply NoDup_Permutation_proper; [|exact Hnd]. by apply Permutation_map. }
  apply NoDup_app in Hnds as (_ & Hdisj & _).
  rewrite (sum_Z_all_zero _ (drop k s)), Z.add_0_r.
  - apply sum_Z_Forall2.
    apply Forall2_same_length_lookup_2; [by eapply Forall2_length|].
    intros i x a Hx Ha.
    destruct (Forall2_lookup_lr _ _ _ _ _ _ Hpre Hx Ha) as (Hid & _ & _).
    assert (Hin : a ∈ alloc) by (apply list_elem_of_lookup; by exists i).
    rewrite Forall_forall in Hb. specialize (Hb a Hin).
    unfold applied_amount. rewrite <- Hid.
    rewrite (id_to_assigned_present alloc a) by done. cbn. lia.
  - apply Forall_forall. intros x Hx.
    unfold applied_amount. rewrite id_to_assigned_absent; [done|].
    rewrite Hids. intros Hin. apply (Hdisj (id x)); [done|].
    apply list_elem_of_fmap. by exists x.
Qed.

Lemma total_saved_apply (now : string) (alloc : list Allocation)
    (data : AppState) :
  total_saved (apply_monthly_allocation now alloc data)
  = total_saved data
    + sum_Z (map (applied_amount (id_to_assigned alloc)) (wishlist data)).
Proof.
  unfold total_saved, apply_monthly_allocation, sum_Z. cbn.
  induction (wishlist data) as [|it wl IH]; cbn; [done|].
  rewrite apply_to_item_current, IH. lia.
Qed.

(** X9. Applying the previewed allocation moves exactly the assigned money
    into the wishlist: in a state with distinct ids, when the preview and
    the apply section of a run with the button pressed return, the total of
    the [current] fields has gone up by the sum of the assigned amounts, so
    that total plus the remaining budget shown equals the old total plus the
    usable cash.  Nothing is created or lost between the preview and the
    ledger. *)
Theorem apply_page_moves_assigned (now : string) (data data' : AppState)
    (alloc : list Allocation) (remaining : Z) :
  unique_ids data ->
  preview data = Ok (alloc, remaining) ->
  apply_page true now data = Ok data' ->
  total_saved data' = total_saved data + sum_Z (map assigned alloc) /\
  total_saved data' + remaining
    = total_saved data + calculate_usable (profile data).
Proof.
  intros Hu Hprev Hpage. unfold apply_page in Hpage. rewrite Hprev in Hpage.
  cbn in Hpage. injection Hpage as <-.
  assert (Hu0 : 0 <= calculate_usable (profile data))
    by (unfold calculate_usable; lia).
  pose proof (preview_sum _ _ _ Hprev) as Hsum.
  assert (Hadd : total_saved (apply_handler true now alloc data)
                 = total_saved data + sum_Z (map assigned alloc)).
  { unfold apply_handler. destruct alloc as [|a0 rest] eqn:Ha.
    - cbn. lia.
    - rewrite <- Ha in *. rewrite total_saved_apply. f_equal.
      by eapply applied_amount_total. }
  split; [done|]. lia.
Qed.

Lemma apply_page_moves_assigned_witness :
  let data := mkState (mkProfile 1000 300 550 60)
                [mkItem 1 "desk" 100 (Some 1) (Some 10) (Some 2) "t0";
                 mkItem 2 "lamp" 50 (Some 1) (Some 7) (Some 1) "t1"] [] in
  let data' := mkState (mkProfile 1000 300 550 60)
                [mkItem 1 "desk" 100 (Some 1) (Some 57) (Some 2) "t0";
                 mkItem 2 "lamp" 50 (Some 1) (Some 50) (Some 1) "t1"]
                [monthly_alloc "m1"
                   [mkAlloc 2 "lamp" 43 43; mkAlloc 1 "desk" 47 90]] in
  unique_ids data /\
  preview data = Ok ([mkAlloc 2 "lamp" 43 43; mkAlloc 1 "desk" 47 90], 0) /\
  apply_page true "m1" data = Ok data' /\
  total_saved data' = total_saved data + sum_Z [43; 47].
Proof.
  cbn zeta.
  assert (Hu : unique_ids (mkState (mkProfile 1000 300 550 60)
                [mkItem 1 "desk" 100 (Some 1) (Some 10) (Some 2) "t0";
                 mkItem 2 "lamp" 50 (Some 1) (Some 7) (Some 1) "t1"] [])).
  { unfold unique_ids. cbn. apply NoDup_cons. split.
    - intros H. apply list_elem_of_singleton in H. discriminate.
    - apply NoDup_singleton. }
  assert (Hprev : preview (mkState (mkProfile 1000 300 550 60)
                [mkItem 1 "desk" 100 (Some 1) (Some 10) (Some 2) "t0";
                 mkItem 2 "lamp" 50 (Some 1) (Some 7) (Some 1) "t1"] [])
          = Ok ([mkAlloc 2 "lamp" 43 43; mkAlloc 1 "desk" 47 90], 0))
    by (vm_compute; reflexivity).
  assert (Hpage : apply_page true "m1"
              (mkState (mkProfile 1000 300 550 60)
                [mkItem 1 "desk" 100 (Some 1) (Some 10) (Some 2) "t0";
                 mkItem 2 "lamp" 50 (Some 1) (Some 7) (Some 1) "t1"] [])
          = Ok (mkState (mkProfile 1000 300 550 60)
                [mkItem 1 "desk" 100 (Some 1) (Some 57) (Some 2) "t0";
                 mkItem 2 "lamp" 50 (Some 1) (Some 50) (Some 1) "t1"]
                [monthly_alloc "m1"
                   [mkAlloc 2 "lamp" 43 43; mkAlloc 1 "desk" 47 90]]))
    by (vm_compute; reflexivity).
  split; [exact Hu|]. split; [exact Hprev|]. split; [exact Hpage|].
  exact (proj1 (apply_page_moves_assigned "m1" _ _ _ _ Hu Hprev Hpage)).
Defined.

(** ** The session: ids, shape of the state, log *)

Lemma py_max_snoc (x : Z) (l : list Z) (y : Z) :
  py_max x (l ++ [y]) = Z.max (py_max x l) y.
Proof. unfold py_max. apply foldl_snoc. Qed.

Lemma new_item_id_after_add (n : string) (t m p : Z) (now : string)
    (data : AppState) :
  new_item_id (add_item n t m p now data) = new_item_id data + 1.
Proof.
  unfold new_item_id at 1. cbn [add_item wishlist]. rewrite map_app. cbn [map].
  cbn [id]. unfold new_item_id.
  destruct (map id (wishlist data)) as [|x l]; cbn [app]; [done|].
  rewrite py_max_snoc. lia.
Qed.

(** The ids are 1, 2, ..., n in wishlist order. *)
Lemma ids_sequential_next (data : AppState) :
  map id (wishlist data) = seqZ 1 (Z.of_nat (length (wishlist data))) ->
  new_item_id data = Z.of_nat (length (wishlist data)) + 1.
Proof.
  intros Hids. unfold new_item_id. rewrite Hids.
  destruct (wishlist data) as [|it wl]; [done|].
  rewrite <- Hids. cbn [map].
  pose proof (py_max_elem (id it) (map id wl)) as Hel.
  assert (Hn : Z.of_nat (length (it :: wl)) ∈ id it :: map id wl).
  { change (id it :: map id wl) with (map id (it :: wl)). rewrite Hids.
    apply elem_of_seqZ. cbn [length]. lia. }
  apply py_max_upper in Hn.
  change (id it :: map id wl) with (map id (it :: wl)) in Hel.
  rewrite Hids in Hel. apply elem_of_seqZ in Hel. lia.
Qed.

Lemma step_ids_sequential (a : action) (data : AppState) :
  map id (wishlist data) = seqZ 1 (Z.of_nat (length (wishlist data))) ->
  map id (wishlist (step a data))
  = seqZ 1 (Z.of_nat (length (wishlist (step a data)))).
Proof.
  intros Hids.
  destruct a as [i f s e|n t m p now|c now alloc|now tid amt memo]; cbn.
  - done.
  - rewrite map_app, length_app. cbn [map length id].
    rewrite (ids_sequential_next data Hids), Hids.
    replace (length (wishlist data) + 1)%nat with (S (length (wishlist data)))
      by lia.
    rewrite seqZ_S. f_equal. f_equal. lia.
  - destruct alloc as [|a alloc]; [done|]. destruct c; [|done].
    cbn. by rewrite ids_apply, length_map.
  - rewrite ids_deposit.
    assert (Hlen : length (deposit_loop tid amt (wishlist data))
                   = length (wishlist data)).
    { rewrite <- (length_map id), ids_deposit. apply length_map. }
    by rewrite Hlen.
Qed.

Lemma run_invariant (I : AppState -> Prop) (valid : action -> Prop) :
  (forall a data, valid a -> I data -> I (step a data)) ->
  forall acts data, Forall valid acts -> I data -> I (run acts data).
Proof.
  intros Hstep acts. unfold run.
  induction acts as [|a acts IH]; intros data Hv Hd; cbn; [done|].
  apply Forall_cons in Hv as [Ha Hv]. apply IH; [done|]. by apply Hstep.
Qed.

(** X10. Ids are handed out in sequence.  Adding an item always moves the
    next id up by one.  In every state reached from the default state the
    ids of the wishlist are 1, 2, ..., n in order of insertion, and the next
    id is n + 1. *)
Theorem ids_are_sequential :
  (forall n t m p now data,
     new_item_id (add_item n t m p now data) = new_item_id data + 1) /\
  (forall acts,
     let d := run acts default_data in
     map id (wishlist d) = seqZ 1 (Z.of_nat (length (wishlist d))) /\
     new_item_id d = Z.of_nat (length (wishlist d)) + 1).
Proof.
  split; [apply new_item_id_after_add|].
  intros acts. cbn zeta.
  assert (Hinv : map id (wishlist (run acts default_data))
                 = seqZ 1 (Z.of_nat (length (wishlist (run acts default_data))))).
  { apply (run_invariant
             (fun d => map id (wishlist d) = seqZ 1 (Z.of_nat (length (wishlist d))))
             (fun _ => True)).
    - intros a data _. apply step_ids_sequential.
    - apply Forall_forall. done.
    - done. }
  split; [done|]. by apply ids_sequential_next.
Qed.

Lemma well_formed_set_current (it : WishlistItem) (v : Z) :
  well_formed_item it -> 0 <= v -> well_formed_item (set_current it v).
Proof.
  intros (Hid & Ht & Hm & _ & Hp) Hv. unfold well_formed_item. cbn.
  repeat split; try done. by exists v.
Qed.

Lemma well_formed_get_current (it : WishlistItem) :
  well_formed_item it -> 0 <= get_current it.
Proof.
  intros (_ & _ & _ & (c & Hc & Hc0) & _). unfold get_current. by rewrite Hc.
Qed.

Lemma well_formed_apply (m : gmap Z Z) (it : WishlistItem) :
  well_formed_item it -> well_formed_item (apply_to_item m it).
Proof.
  intros Hwf. unfold apply_to_item.
  destruct (Z.ltb_spec 0 (default 0 (m !! id it))); [|done].
  apply well_formed_set_current; [done|].
  pose proof (well_formed_get_current it Hwf). lia.
Qed.

Lemma well_formed_deposit (tid amt : Z) (wl : list WishlistItem) :
  0 <= amt -> Forall well_formed_item wl ->
  Forall well_formed_item (deposit_loop tid amt wl).
Proof.
  intros Hamt. induction 1 as [|it wl Hit Hwl IH]; cbn; [constructor|].
  destruct (id it =? tid); constructor; try done.
  apply well_formed_set_current; [done|].
  pose proof (well_formed_get_current it Hit). lia.
Qed.

Lemma new_item_id_positive (data : AppState) :
  Forall well_formed_item (wishlist data) -> 0 < new_item_id data.
Proof.
  intros Hwf. unfold new_item_id.
  destruct (wishlist data) as [|it wl]; [done|]. cbn [map].
  apply Forall_cons in Hwf as [(Hid & _) _].
  pose proof (py_max_ge_init (id it) (map id wl)). lia.
Qed.

Lemma step_well_formed (a : action) (data : AppState) :
  ui_valid a -> well_formed data -> well_formed (step a data).
Proof.
  intros Hv (Hi & Hf & Hs & He & Hwl & Hu).
  assert (Hu' : unique_ids (step a data)) by by apply step_unique_ids.
  destruct a as [i f s e|n t m p now|c now alloc|now tid amt memo];
    cbn in Hv |- *.
  - unfold well_formed. cbn. by destruct Hv as (? & ? & ? & ?).
  - unfold well_formed. cbn. repeat split; try done.
    apply Forall_app. split; [done|]. constructor; [|constructor].
    destruct Hv as (Ht & Hm & Hp).
    unfold well_formed_item. cbn.
    split; [by apply new_item_id_positive|]. split; [done|].
    split; [by exists m|]. split; [by exists 0 | by exists p].
  - destruct alloc as [|a alloc]; [done|]. destruct c; [|done].
    unfold well_formed. cbn. repeat split; try done.
    apply Forall_fmap. eapply Forall_impl; [exact Hwl|].
    intros it Hit. by apply well_formed_apply.
  - unfold well_formed. cbn. repeat split; try done.
    by apply well_formed_deposit.
Qed.

(** X11. The input widgets keep the state in shape.  Starting from the
    default state, after any sequence of actions whose values pass the
    limits of the widgets (amounts at least 0, months at least 1, priority 1
    to 5), the profile amounts are not negative, and every item has a
    positive id, a target that is not negative, a [months] of at least 1, a
    [current] that is not negative and a priority from 1 to 5, all keys
    present, with ids pairwise distinct. *)
Theorem reachable_well_formed (acts : list action) :
  Forall ui_valid acts -> well_formed (run acts default_data).
Proof.
  intros Hv.
  apply (run_invariant well_formed ui_valid); [|done|].
  - intros a data. apply step_well_formed.
  - unfold well_formed, unique_ids. cbn.
    repeat split; try done; try apply NoDup_nil_2.
Qed.

Lemma reachable_well_formed_witness :
  let acts := [SaveProfile 1000 300 550 60;
               AddItem "desk" 100 3 2 "t0";
               ManualDeposit "t1" 1 40 "gift";
               ApplyAllocation true "t2" [mkAlloc 1 "desk" 20 20]] in
  Forall ui_valid acts /\
  wishlist (run acts default_data)
    = [mkItem 1 "desk" 100 (Some 3) (Some 60) (Some 2) "t0"] /\
  well_formed (run acts default_data).
Proof.
  cbn zeta.
  assert (Hv : Forall ui_valid
            [SaveProfile 1000 300 550 60;
             AddItem "desk" 100 3 2 "t0";
             ManualDeposit "t1" 1 40 "gift";
             ApplyAllocation true "t2" [mkAlloc 1 "desk" 20 20]]).
  { repeat constructor; cbn; lia. }
  split; [exact Hv|]. split; [vm_compute; reflexivity|].
  exact (reachable_well_formed _ Hv).
Defined.

Lemma step_transactions (a : action) (data : AppState) :
  transactions (step a data) = transactions data \/
  exists t, transactions (step a data) = transactions data ++ [t].
Proof.
  destruct a as [i f s e|n t m p now|c now alloc|now tid amt memo]; cbn.
  - by left.
  - by left.
  - destruct alloc as [|a alloc]; [by left|]. destruct c; [|by left].
    right. by eexists.
  - right. by eexists.
Qed.

(** X12. The transaction log is append-only.  Whatever the actions, the log
    before them is a prefix of the log after them: no entry is ever removed,
    changed or reordered, and a sequence of actions adds at most one entry
    per action. *)
Theorem transactions_append_only (acts : list action) (data : AppState) :
  transactions data `prefix_of` transactions (run acts data) /\
  (length (transactions (run acts data))
   <= length (transactions data) + length acts)%nat.
Proof.
  unfold run. revert data.
  induction acts as [|a acts IH]; intros data; cbn.
  - split; [done | lia].
  - destruct (IH (step a data)) as [Hpre Hlen].
    destruct (step_transactions a data) as [Heq|[t Heq]]; rewrite Heq in *.
    + split; [done | lia].
    + split; [by eapply prefix_app_l|].
      rewrite length_app in Hlen. cbn in Hlen. lia.
Qed.

(** ** What no handler does to the wishlist *)

Lemma static_deposit (tid amt : Z) (wl : list WishlistItem) :
  map static (deposit_loop tid amt wl) = map static wl.
Proof.
  induction wl as [|it wl IH]; [done|]. cbn.
  destruct (id it =? tid); cbn; [done|]. by rewrite IH.
Qed.

Lemma static_apply (m : gmap Z Z) (wl : list WishlistItem) :
  map static (map (apply_to_item m) wl) = map static wl.
Proof.
  induction wl as [|it wl IH]; [done|]. cbn.
  by rewrite IH, static_apply_to_item.
Qed.

Lemma step_static (a : action) (data : AppState) :
  map static (wishlist data) `prefix_of` map static (wishlist (step a data)).
Proof.
  destruct a as [i f s e|n t m p now|c now alloc|now tid amt memo]; cbn.
  - done.
  - rewrite map_app. by apply prefix_app_r.
  - destruct alloc as [|a alloc]; [done|]. destruct c; [|done].
    cbn. by rewrite static_apply.
  - by rewrite static_deposit.
Qed.

Lemma kept_refl (wl : list WishlistItem) : kept wl wl.
Proof.
  exists wl, []. split; [by rewrite app_nil_r|].
  apply Forall2_same_length_lookup_2; [done|].
  intros i x y Hx Hy. rewrite Hx in Hy. injection Hy as <-. split; [done | lia].
Qed.

Lemma kept_trans (wl1 wl2 wl3 : list WishlistItem) :
  kept wl1 wl2 -> kept wl2 wl3 -> kept wl1 wl3.
Proof.
  intros (k1 & e1 & -> & H1) (k2 & e2 & -> & H2).
  apply Forall2_app_inv_l in H2 as (k2a & k2b & H2a & H2b & ->).
  exists k2a, (k2b ++ e2). split; [by rewrite app_assoc|].
  clear H2b. revert k2a H2a.
  induction H1 as [|x y l k [Hs Hc] _ IH]; intros k2a H2a.
  - apply Forall2_nil_inv_l in H2a as ->. constructor.
  - apply Forall2_cons_inv_l in H2a as (z & k' & [Hs' Hc'] & Hk' & ->).
    constructor; [|by apply IH]. split; [congruence | lia].
Qed.

Lemma kept_pointwise (f : WishlistItem -> WishlistItem)
    (wl : list WishlistItem) :
  (forall it, static (f it) = static it /\ get_current it <= get_current (f it)) ->
  kept wl (map f wl).
Proof.
  intros Hf. exists (map f wl), []. split; [by rewrite app_nil_r|].
  induction wl as [|it wl IH]; cbn; constructor; [apply Hf | done].
Qed.

Lemma kept_deposit (tid amt : Z) (wl : list WishlistItem) :
  0 <= amt -> kept wl (deposit_loop tid amt wl).
Proof.
  intros Hamt. exists (deposit_loop tid amt wl), [].
  split; [by rewrite app_nil_r|].
  induction wl as [|it wl IH]; cbn; [constructor|].
  destruct (id it =? tid).
  - constructor; [cbn; split; [done | lia]|].
    destruct (kept_refl wl) as (k & e & Heq & Hall).
    apply Forall2_same_length_lookup_2; [done|].
    intros i x y Hx Hy. rewrite Hx in Hy. injection Hy as <-.
    split; [done | lia].
  - constructor; [split; [done | lia] | done].
Qed.

Lemma step_kept (a : action) (data : AppState) :
  ui_valid a -> kept (wishlist data) (wishlist (step a data)).
Proof.
  intros Hv.
  destruct a as [i f s e|n t m p now|c now alloc|now tid amt memo];
    cbn in Hv |- *.
  - apply kept_refl.
  - destruct (kept_refl (wishlist data)) as (k & e & Heq & Hall).
    exists (wishlist data), [mkItem (new_item_id data) n t (Some m) (Some 0)
                               (Some p) now].
    split; [done|].
    apply Forall2_same_length_lookup_2; [done|].
    intros j x y Hx Hy. rewrite Hx in Hy. injection Hy as <-.
    split; [done | lia].
  - destruct alloc as [|a alloc]; [apply kept_refl|].
    destruct c; [|apply kept_refl].
    cbn. apply kept_pointwise. intros it.
    split; [apply static_apply_to_item|].
    rewrite apply_to_item_current. unfold applied_amount. lia.
  - by apply kept_deposit.
Qed.

(** X13. No handler removes, reorders or rewrites an item.  After any
    sequence of actions the items that were in the wishlist are still its
    first items, in the same order, each with the id, name, target, months,
    priority and creation time it had.  When the deposit amounts are not
    negative (as the widget makes them), no item's [current] is lower than
    before. *)
Theorem wishlist_items_kept (acts : list action) (data : AppState) :
  map static (wishlist data)
    `prefix_of` map static (wishlist (run acts data)) /\
  (Forall ui_valid acts ->
   kept (wishlist data) (wishlist (run acts data)) /\
   forall (i : nat) it, wishlist data !! i = Some it ->
     exists it', wishlist (run acts data) !! i = Some it' /\
       static it' = static it /\ get_current it <= get_current it').
Proof.
  split.
  - unfold run. revert data.
    induction acts as [|a acts IH]; intros data; cbn; [done|].
    etrans; [apply step_static | apply IH].
  - intros Hv.
    assert (Hk : kept (wishlist data) (wishlist (run acts data))).
    { unfold run. revert data.
      induction Hv as [|a acts Ha _ IH]; intros data; cbn; [apply kept_refl|].
      eapply kept_trans; [by apply step_kept | apply IH]. }
    split; [done|].
    intros i it Hi. destruct Hk as (k & e & Heq & Hall).
    destruct (Forall2_lookup_l _ _ _ _ _ Hall Hi) as (it' & Hi' & Hs & Hc).
    exists it'. split; [|done].
    rewrite Heq. by apply lookup_app_l_Some.
Qed.

Lemma wishlist_items_kept_witness :
  let acts := [ManualDeposit "t1" 1 40 "gift";
               AddItem "lamp" 50 1 1 "t2";
               ApplyAllocation true "t3" [mkAlloc 1 "desk" 20 20]] in
  let data := mkState (mkProfile 0 0 0 0)
                [mkItem 1 "desk" 100 (Some 3) None (Some 2) "t0"] [] in
  Forall ui_valid acts /\
  exists it', wishlist (run acts data) !! 0%nat = Some it' /\
    static it' = (1, "desk", 100, Some 3, Some 2, "t0") /\
    0 <= get_current it'.
Proof.
  cbn zeta.
  assert (Hv : Forall ui_valid
            [ManualDeposit "t1" 1 40 "gift";
             AddItem "lamp" 50 1 1 "t2";
             ApplyAllocation true "t3" [mkAlloc 1 "desk" 20 20]]).
  { repeat constructor; cbn; lia. }
  split; [exact Hv|].
  destruct (proj2 (wishlist_items_kept _
             (mkState (mkProfile 0 0 0 0)
                [mkItem 1 "desk" 100 (Some 3) None (Some 2) "t0"] [])) Hv)
    as [_ Hkept].
  exact (Hkept 0%nat _ eq_refl).
Defined.

(** ** Manual deposits: the ledger total and the labels of the form *)

Lemma total_deposit_loop (tid amt : Z) (wl : list WishlistItem) :
  sum_Z (map get_current (deposit_loop tid amt wl))
  = sum_Z (map get_current wl)
    + (if decide (tid ∈ map id wl) then amt else 0).
Proof.
  unfold sum_Z. induction wl as [|it wl IH]; cbn.
  - rewrite decide_False; [lia | apply not_elem_of_nil].
  - destruct (Z.eqb_spec (id it) tid) as [Heq|Hne]; cbn.
    + rewrite decide_True by (apply elem_of_cons; by left). lia.
    + rewrite IH.
      destruct (decide (tid ∈ map id wl)) as [Hin|Hout].
      * rewrite decide_True by (apply elem_of_cons; by right). lia.
      * rewrite decide_False; [lia|].
        intros Hin. apply elem_of_cons in Hin as [?|?]; [congruence | done].
Qed.

Lemma total_saved_deposit_hit (now : string) (target_id amount : Z)
    (memo : string) (data : AppState) :
  target_id ∈ map id (wishlist data) ->
  total_saved (record_manual_deposit now target_id amount memo data)
  = total_saved data + amount.
Proof.
  intros Hin. unfold total_saved, record_manual_deposit. cbn.
  rewrite total_deposit_loop. by rewrite decide_True.
Qed.

(** X14. A manual deposit changes the total saved by exactly its amount
    when its id is the id of some item, and leaves the total as it was when
    no item has that id: money is never credited twice, even if several
    items share the id, and an unmatched deposit is only a line in the log. *)
Theorem manual_deposit_total (now : string) (target_id amount : Z)
    (memo : string) (data : AppState) :
  let data' := record_manual_deposit now target_id amount memo data in
  (target_id ∈ map id (wishlist data) ->
   total_saved data' = total_saved data + amount) /\
  (target_id ∉ map id (wishlist data) ->
   total_saved data' = total_saved data /\ wishlist data' = wishlist data).
Proof.
  cbn zeta. unfold total_saved, record_manual_deposit. cbn.
  rewrite total_deposit_loop. split; intros Hin.
  - by rewrite decide_True.
  - rewrite decide_False by done. split; [lia|].
    apply deposit_loop_no_match. intros it Hit Heq. apply Hin.
    apply list_elem_of_fmap. by exists it.
Qed.

Lemma manual_deposit_total_witness :
  let data := mkState (mkProfile 0 0 0 0)
                [mkItem 1 "desk" 300 (Some 3) (Some 20) (Some 2) "t0";
                 mkItem 1 "lamp" 40 (Some 1) None (Some 1) "t1"] [] in
  1 ∈ map id (wishlist data) /\
  total_saved (record_manual_deposit "t2" 1 15 "cash" data)
    = total_saved data + 15 /\
  (7 ∉ map id (wishlist data)) /\
  total_saved (record_manual_deposit "t3" 7 15 "cash" data) = total_saved data.
Proof.
  cbn zeta.
  assert (Hin : 1 ∈ map id (wishlist (mkState (mkProfile 0 0 0 0)
                [mkItem 1 "desk" 300 (Some 3) (Some 20) (Some 2) "t0";
                 mkItem 1 "lamp" 40 (Some 1) None (Some 1) "t1"] [])))
    by (cbn; apply elem_of_cons; by left).
  assert (Hout : 7 ∉ map id (wishlist (mkState (mkProfile 0 0 0 0)
                [mkItem 1 "desk" 300 (Some 3) (Some 20) (Some 2) "t0";
                 mkItem 1 "lamp" 40 (Some 1) None (Some 1) "t1"] []))).
  { cbn. rewrite !elem_of_cons, elem_of_nil.
    intros H; repeat (destruct H as [H|H]; try discriminate); done. }
  split; [exact Hin|].
  split; [exact (proj1 (manual_deposit_total "t2" 1 15 "cash" _) Hin)|].
  split; [exact Hout|].
  exact (proj1 (proj2 (manual_deposit_total "t3" 7 15 "cash" _) Hout)).
Defined.

Module LabelFacts.

Lemma pretty_N_char_colon_free (x : N) :
  Ascii.eqb (pretty_N_char x) ":"%char = false.
Proof. unfold pretty_N_char. by repeat case_match. Qed.

Lemma pretty_N_go_colon_free (x : N) (s : string) :
  colon_free s = true -> colon_free (pretty_N_go x s) = true.
Proof.
  revert s. induction (N.lt_wf_0 x) as [x _ IH]; intros s Hs.
  assert (x = 0 \/ 0 < x)%N as [->|Hx] by lia.
  - by rewrite pretty_N_go_0.
  - rewrite pretty_N_go_step by done. apply IH.
    + by apply N.div_lt.
    + cbn. by rewrite pretty_N_char_colon_free.
Qed.

Lemma pretty_N_colon_free (x : N) : colon_free (pretty x) = true.
Proof.
  unfold pretty, pretty_N. case_decide; [done|].
  by apply pretty_N_go_colon_free.
Qed.

Lemma pretty_Z_colon_free (z : Z) : colon_free (pretty z) = true.
Proof.
  destruct z as [|x|x]; unfold pretty, pretty_Z; [done|..].
  - apply pretty_N_colon_free.
  - cbn. apply pretty_N_colon_free.
Qed.

(** What stands before the first [:] of a string is determined by the
    string. *)
Lemma colon_prefix_inj (s1 s2 r1 r2 : string) :
  colon_free s1 = true -> colon_free s2 = true ->
  s1 +:+ String ":"%char r1 = s2 +:+ String ":"%char r2 -> s1 = s2.
Proof.
  revert s2. induction s1 as [|c1 s1 IH]; intros [|c2 s2] H1 H2 Heq;
    cbn in *.
  - done.
  - injection Heq as <- _. by rewrite Ascii.eqb_refl in H2.
  - injection Heq as -> _. by rewrite Ascii.eqb_refl in H1.
  - injection Heq as <- Heq.
    apply andb_prop in H1 as [_ H1]. apply andb_prop in H2 as [_ H2].
    f_equal. by apply IH.
Qed.

Lemma label_id (it it' : WishlistItem) : label it = label it' -> id it = id it'.
Proof.
  unfold label. intros Heq.
  apply (inj pretty).
  eapply colon_prefix_inj; [apply pretty_Z_colon_free.. | exact Heq].
Qed.

Lemma choices_foldl_inv (m0 : gmap string Z) (wl : list WishlistItem)
    (k : string) (z : Z) :
  foldl (fun m it => <[label it := id it]> m) m0 wl !! k = Some z ->
  m0 !! k = Some z \/ exists it, it ∈ wl /\ label it = k /\ id it = z.
Proof.
  revert m0. induction wl as [|x wl IH]; intros m0 Hk; cbn in Hk; [by left|].
  apply IH in Hk as [Hk|(it & Hit & Hl & Hi)].
  - destruct (decide (label x = k)) as [Hx|Hx].
    + rewrite <- Hx, lookup_insert_eq in Hk. injection Hk as <-.
      right. exists x. split; [apply elem_of_cons; by left | done].
    + rewrite lookup_insert_ne in Hk by done. by left.
  - right. exists it. split; [apply elem_of_cons; by right | done].
Qed.

Lemma choices_foldl_lookup (m0 : gmap string Z) (wl : list WishlistItem)
    (k : string) (z : Z) :
  (forall it, it ∈ wl -> label it = k -> id it = z) ->
  m0 !! k = Some z \/ (exists it, it ∈ wl /\ label it = k) ->
  foldl (fun m it => <[label it := id it]> m) m0 wl !! k = Some z.
Proof.
  revert m0. induction wl as [|x wl IH]; intros m0 Hall Hk; cbn.
  - destruct Hk as [Hk|(it & Hit & _)]; [done | by apply elem_of_nil in Hit].
  - apply IH.
    + intros it Hit. apply Hall. apply elem_of_cons; by right.
    + destruct (decide (label x = k)) as [Hx|Hx].
      * left. rewrite <- Hx, lookup_insert_eq. f_equal.
        apply Hall; [apply elem_of_cons; by left | done].
      * rewrite lookup_insert_ne by done.
        destruct Hk as [Hk|(it & Hit & Hl)]; [by left|].
        apply elem_of_cons in Hit as [->|Hit]; [done|].
        right. by exists it.
Qed.

End LabelFacts.

(** X15. The ids that the deposit form can pass on are ids of items.  The
    label of every item is a key of [choices] and maps back to that item's
    id, also when several items have the same name.  Whatever key is looked
    up, the id found is the id of an item of the wishlist with that label;
    so the deposit loop run on it finds an item, and the total saved goes up
    by the amount.  The deposit that matches no item needs an id that
    [choices] does not hold. *)
Theorem choices_ids_exist (now : string) (amount : Z) (memo : string)
    (data : AppState) :
  (forall it, it ∈ wishlist data ->
     choices (wishlist data) !! label it = Some (id it)) /\
  (forall sel target_id,
     choices (wishlist data) !! sel = Some target_id ->
     (exists it, it ∈ wishlist data /\ label it = sel /\ id it = target_id) /\
     target_id ∈ map id (wishlist data) /\
     total_saved (record_manual_deposit now target_id amount memo data)
       = total_saved data + amount).
Proof.
  split.
  - intros it Hit. unfold choices.
    apply LabelFacts.choices_foldl_lookup.
    + intros it' _ Hl. by apply LabelFacts.label_id.
    + right. by exists it.
  - intros sel tid Hsel.
    assert (Hit : exists it, it ∈ wishlist data /\ label it = sel /\ id it = tid).
    { apply LabelFacts.choices_foldl_inv in Hsel as [Hsel|Hsel]; [|done].
      by rewrite lookup_empty in Hsel. }
    split; [done|]. destruct Hit as (it & Hit & _ & Hid).
    assert (Hin : tid ∈ map id (wishlist data)).
    { rewrite <- Hid. apply list_elem_of_fmap. by exists it. }
    split; [done|]. by apply total_saved_deposit_hit.
Qed.

Lemma choices_ids_exist_witness :
  let data := mkState (mkProfile 0 0 0 0)
                [mkItem 1 "desk" 300 (Some 3) (Some 20) (Some 2) "t0";
                 mkItem 2 "desk" 40 (Some 1) (Some 4) (Some 1) "t1"] [] in
  choices (wishlist data) !! "2: desk" = Some 2 /\
  2 ∈ map id (wishlist data) /\
  total_saved (record_manual_deposit "t2" 2 15 "cash" data)
    = total_saved data + 15.
Proof.
  cbn zeta.
  assert (Hsel : choices (wishlist (mkState (mkProfile 0 0 0 0)
                [mkItem 1 "desk" 300 (Some 3) (Some 20) (Some 2) "t0";
                 mkItem 2 "desk" 40 (Some 1) (Some 4) (Some 1) "t1"] []))
                 !! "2: desk" = Some 2) by (vm_compute; reflexivity).
  split; [exact Hsel|].
  exact (proj2 (proj2 (choices_ids_exist "t2" 15 "cash" _) _ _ Hsel)).
Defined.

(** ** The transaction table *)

Lemma recent_snoc (txs : list Transaction) (t : Transaction) :
  reverse (drop (length (txs ++ [t]) - 20) (txs ++ [t]))
  = t :: take 19 (reverse (drop (length txs - 20) txs)).
Proof.
  rewrite length_app. cbn [length].
  rewrite drop_app_le by lia. rewrite reverse_snoc. f_equal.
  rewrite take_reverse, drop_drop, length_drop. f_equal. f_equal. lia.
Qed.

(** X16. The transaction table shows the newest entry first and at most
    twenty entries.  Each manual deposit and each applied allocation goes on
    top of the table and keeps the nineteen newest of the rows that were
    there; with twenty entries or fewer in the log the table is the whole
    log in reverse. *)
Theorem recent_transactions_newest_first (data : AppState) :
  length (recent_transactions data)
    = Nat.min 20 (length (transactions data)) /\
  ((length (transactions data) <= 20)%nat ->
   recent_transactions data = reverse (transactions data)) /\
  (forall now target_id amount memo,
     recent_transactions (record_manual_deposit now target_id amount memo data)
     = manual_deposit now amount target_id memo
       :: take 19 (recent_transactions data)) /\
  (forall now alloc,
     recent_transactions (apply_monthly_allocation now alloc data)
     = monthly_alloc now alloc :: take 19 (recent_transactions data)).
Proof.
  unfold recent_transactions. cbn zeta.
  split; [rewrite length_reverse, length_drop; lia|].
  split; [|split].
  - intros Hle.
    replace (length (transactions data) - 20)%nat with 0%nat by lia.
    by rewrite drop_0.
  - intros now tid amt memo. cbn. apply recent_snoc.
  - intros now alloc. cbn. apply recent_snoc.
Qed.

Lemma recent_transactions_newest_first_witness :
  let data := mkState (mkProfile 0 0 0 0) []
                [manual_deposit "t1" 10 1 "a"; manual_deposit "t2" 20 1 "b"] in
  (length (transactions data) <= 20)%nat /\
  recent_transactions data
    = [manual_deposit "t2" 20 1 "b"; manual_deposit "t1" 10 1 "a"].
Proof.
  cbn zeta.
  assert (Hle : (length (transactions (mkState (mkProfile 0 0 0 0) []
                   [manual_deposit "t1" 10 1 "a";
                    manual_deposit "t2" 20 1 "b"])) <= 20)%nat)
    by (cbn; lia).
  split; [exact Hle|].
  exact (proj1 (proj2 (recent_transactions_newest_first _)) Hle).
Defined.

(** ** The progress report *)

Lemma true_divide_not_zero_division (a b : Z) :
  b <> 0 -> Float.true_divide a b <> Raise ZeroDivisionError.
Proof.
  intros Hb. unfold Float.true_divide.
  rewrite (proj2 (Z.eqb_neq b 0) Hb).
  destruct (a =? 0); [done|]. by destruct (_ && _).
Qed.

(** X17. The estimate of the months remaining never divides by zero: a need
    of 0 is replaced by 1.  For an item below its target, with [months] at
    least 1 (or missing) and less than [2^53] left to save, the estimate is
    computed, and its whole part is the remaining amount divided by the
    monthly need, which is never less than [months]; when the need is 0 the
    estimate is the remaining amount itself. *)
Theorem est_months_remaining_defined (it : WishlistItem) :
  est_months_remaining it <> Raise ZeroDivisionError /\
  (let a := target it - get_current it in
   get_current it < target it -> 1 <= months_or_1 it -> a < 2 ^ 53 ->
   exists n q,
     monthly_need_for_item it = Ok n /\
     est_months_remaining it = Ok q /\
     (1 <= n -> Float.to_int q = a / n /\ months_or_1 it <= Float.to_int q) /\
     (n = 0 -> Float.to_int q = a)).
Proof.
  split.
  - unfold est_months_remaining.
    destruct (monthly_need_for_item it) as [n|e] eqn:Hn; cbn.
    + apply true_divide_not_zero_division.
      destruct (Z.eqb_spec n 0); lia.
    + intros [= ->]. by apply (monthly_need_no_zero_division it).
  - cbn zeta. intros Hunmet Hm Hsmall.
    destruct (monthly_need_floor_bounds it Hm ltac:(lia)) as (n & Hn & Hbound).
    pose proof (monthly_need_nonneg _ _ Hn) as Hn0.
    assert (Hd : (if n =? 0 then 1 else n) <> 0)
      by (destruct (Z.eqb_spec n 0); lia).
    destruct (FloatFacts.to_int_true_divide
                (target it - get_current it) _ Hd ltac:(lia))
      as (q & Hq & Hint).
    exists n, q. split; [done|]. split.
    { unfold est_months_remaining. by rewrite Hn. }
    split.
    + intros Hn1. destruct (Z.eqb_spec n 0) as [|_]; [lia|].
      rewrite Z.quot_div_nonneg in Hint by lia.
      split; [done|]. rewrite Hint.
      apply Z.div_le_lower_bound; lia.
    + intros ->. cbn in Hint. by rewrite Z.quot_1_r in Hint.
Qed.

Lemma est_months_remaining_defined_witness :
  let it := mkItem 1 "desk" 400000 (Some 3) (Some 150000) (Some 2) "t0" in
  let small := mkItem 2 "pen" 30000 (Some 4) (Some 29998) (Some 3) "t1" in
  get_current it < target it /\ 1 <= months_or_1 it /\
  target it - get_current it < 2 ^ 53 /\
  monthly_need_for_item it = Ok 83333 /\
  (exists q, est_months_remaining it = Ok q /\ Float.to_int q = 3) /\
  monthly_need_for_item small = Ok 0 /\
  (exists q, est_months_remaining small = Ok q /\ Float.to_int q = 2).
Proof.
  cbn zeta.
  assert (H1 : get_current (mkItem 1 "desk" 400000 (Some 3) (Some 150000)
                              (Some 2) "t0")
               < target (mkItem 1 "desk" 400000 (Some 3) (Some 150000)
                           (Some 2) "t0")) by (cbn; lia).
  assert (H2 : 1 <= months_or_1 (mkItem 1 "desk" 400000 (Some 3)
                                   (Some 150000) (Some 2) "t0"))
    by (cbn; lia).
  assert (H3 : target (mkItem 1 "desk" 400000 (Some 3) (Some 150000)
                         (Some 2) "t0")
               - get_current (mkItem 1 "desk" 400000 (Some 3) (Some 150000)
                                (Some 2) "t0") < 2 ^ 53)
    by (vm_compute; reflexivity).
  split; [exact H1|]. split; [exact H2|]. split; [exact H3|].
  destruct (proj2 (est_months_remaining_defined _) H1 H2 H3)
    as (n & q & Hn & Hq & Hpos & _).
  assert (Hn' : monthly_need_for_item
                  (mkItem 1 "desk" 400000 (Some 3) (Some 150000) (Some 2)
                     "t0") = Ok 83333) by (vm_compute; reflexivity).
  split; [exact Hn'|].
  rewrite Hn' in Hn. injection Hn as <-.
  split.
  { exists q. split; [exact Hq|].
    destruct (Hpos ltac:(lia)) as [Hint _]. rewrite Hint. reflexivity. }
  split; [vm_compute; reflexivity|].
  eexists. split; vm_compute; reflexivity.
Defined.

(** ** How the allocation depends on its inputs *)

Lemma filter_key_singleton {A : Type} (key : A -> Z) (k : Z) (l : list A) :
  NoDup (map key l) ->
  (length (filter (fun x => key x = k) l) <= 1)%nat.
Proof.
  induction l as [|x l IH]; intros Hnd; [cbn; lia|].
  cbn in Hnd. apply NoDup_cons in Hnd as [Hx Hnd].
  rewrite filter_cons. destruct (decide (key x = k)) as [Hk|Hk]; [|by apply IH].
  assert (Hnil : filter (fun y => key y = k) l = []).
  { destruct (filter (fun y => key y = k) l) as [|y r] eqn:Hf; [done|].
    assert (Hy : y ∈ filter (fun y => key y = k) l)
      by (rewrite Hf; apply elem_of_cons; by left).
    apply list_elem_of_filter in Hy as [Hyk Hy].
    exfalso. apply Hx. rewrite Hk, <- Hyk. apply list_elem_of_fmap.
    by exists y. }
  rewrite Hnil. cbn. lia.
Qed.

Lemma sorted_perm_distinct {A : Type} (key : A -> Z) (l l' : list A) :
  l ≡ₚ l' -> NoDup (map key l) -> sorted key l = sorted key l'.
Proof.
  intros Hperm Hnd.
  apply (stable_sorted_unique key); [apply sorted_sorted..|].
  intros k. rewrite !sorted_stable.
  assert (Hp : filter (fun y => key y = k) l
               ≡ₚ filter (fun y => key y = k) l') by by rewrite Hperm.
  pose proof (filter_key_singleton key k l Hnd) as Hlen.
  destruct (filter (fun y => key y = k) l) as [|x [|y r]].
  - by apply Permutation_nil_l in Hp.
  - by apply Permutation_singleton_l in Hp.
  - cbn in Hlen. lia.
Qed.

(** X18. The order in which the items sit in the wishlist matters only
    among items of equal priority: two wishlists that hold the same items in
    different orders, with pairwise different priority keys, get the same
    allocation. *)
Theorem allocation_order_independent (usable : Z) (wl wl' : list WishlistItem) :
  wl ≡ₚ wl' -> NoDup (map priority_key wl) ->
  allocate_to_wishlist usable wl = allocate_to_wishlist usable wl'.
Proof.
  intros Hperm Hnd. unfold allocate_to_wishlist. cbn zeta.
  by rewrite (sorted_perm_distinct priority_key wl wl').
Qed.

Lemma allocation_order_independent_witness :
  let a := mkItem 1 "desk" 100 (Some 1) (Some 0) (Some 2) "t0" in
  let b := mkItem 2 "lamp" 50 (Some 1) (Some 0) (Some 1) "t1" in
  let c := mkItem 3 "bike" 80 (Some 1) (Some 0) None "t2" in
  [a; b; c] ≡ₚ [c; a; b] /\ NoDup (map priority_key [a; b; c]) /\
  allocate_to_wishlist 120 [a; b; c] = allocate_to_wishlist 120 [c; a; b].
Proof.
  cbn zeta.
  assert (Hperm : [mkItem 1 "desk" 100 (Some 1) (Some 0) (Some 2) "t0";
                   mkItem 2 "lamp" 50 (Some 1) (Some 0) (Some 1) "t1";
                   mkItem 3 "bike" 80 (Some 1) (Some 0) None "t2"]
                  ≡ₚ [mkItem 3 "bike" 80 (Some 1) (Some 0) None "t2";
                      mkItem 1 "desk" 100 (Some 1) (Some 0) (Some 2) "t0";
                      mkItem 2 "lamp" 50 (Some 1) (Some 0) (Some 1) "t1"]).
  { symmetry. apply (Permutation_cons_append
      [mkItem 1 "desk" 100 (Some 1) (Some 0) (Some 2) "t0";
       mkItem 2 "lamp" 50 (Some 1) (Some 0) (Some 1) "t1"]). }
  assert (Hnd : NoDup (map priority_key
                  [mkItem 1 "desk" 100 (Some 1) (Some 0) (Some 2) "t0";
                   mkItem 2 "lamp" 50 (Some 1) (Some 0) (Some 1) "t1";
                   mkItem 3 "bike" 80 (Some 1) (Some 0) None "t2"])).
  { cbn. repeat (apply NoDup_cons; split); try apply NoDup_nil_2;
      rewrite ?elem_of_cons, ?elem_of_nil; intros H;
      repeat (destruct H as [H|H]; try discriminate); done. }
  split; [exact Hperm|]. split; [exact Hnd|].
  exact (allocation_order_independent 120 _ _ Hperm Hnd).
Defined.

Lemma loop_trace_monotone (items : list WishlistItem) (r r' : Z)
    (alloc alloc' : list Allocation) (rem rem' : Z) :
  loop_trace items r alloc rem -> loop_trace items r' alloc' rem' ->
  r <= r' ->
  rem <= rem' /\
  exists more,
    Forall2 (fun a a' => alloc_id a' = alloc_id a /\ need a' = need a /\
                         assigned a <= assigned a')
            alloc (take (length alloc) alloc') /\
    alloc' = take (length alloc) alloc' ++ more.
Proof.
  intros Htr. revert r' alloc' rem'.
  induction Htr as [r|it rest r n Hn Hle|it rest r n new r1 Hn Hgt Htr IH];
    intros r' alloc' rem' Htr' Hr.
  - inversion Htr'; subst. split; [done|]. exists []. split; [constructor|done].
  - inversion Htr' as [|? ? ? n' Hn' Hle'|? ? ? n' new' ? Hn' Hgt' Hrest];
      subst; rewrite Hn in Hn'; injection Hn' as <-.
    + split; [lia|]. exists []. cbn. split; [|done].
      constructor; [cbn; split; [done|split; [done|lia]] | constructor].
    + assert (Hpos : 0 <= rem').
      { eapply budget_trace_nonneg; [by eapply loop_trace_budget | lia]. }
      split; [lia|]. exists new'. cbn. rewrite take_0. split; [|done].
      constructor; [cbn; split; [done|split; [done|lia]] | constructor].
  - inversion Htr' as [|? ? ? n' Hn' Hle'|? ? ? n' new' ? Hn' Hgt' Hrest];
      subst; rewrite Hn in Hn'; injection Hn' as <-.
    + lia.
    + destruct (IH _ _ _ Hrest ltac:(lia)) as (Hrem & more & Hall & Heq).
      split; [done|]. exists more. cbn. split.
      * constructor; [cbn; split; [done|split; [done|lia]] | done].
      * by rewrite <- Heq.
Qed.

(** X19. A larger budget never takes anything away.  When the allocation
    returns for two budgets on the same wishlist, the larger budget gives
    every record of the smaller one again, in the same position and for the
    same item, with at least the same assigned amount, possibly followed by
    further records, and leaves at least as much remaining. *)
Theorem allocation_monotone (usable usable' : Z) (wl : list WishlistItem)
    (alloc alloc' : list Allocation) (remaining remaining' : Z) :
  usable <= usable' ->
  allocate_to_wishlist usable wl = Ok (alloc, remaining) ->
  allocate_to_wishlist usable' wl = Ok (alloc', remaining') ->
  remaining <= remaining' /\
  (length alloc <= length alloc')%nat /\
  (forall (i : nat) a, alloc !! i = Some a ->
     exists a', alloc' !! i = Some a' /\ alloc_id a' = alloc_id a /\
       need a' = need a /\ assigned a <= assigned a').
Proof.
  intros Hle Hrun Hrun'.
  apply allocate_trace in Hrun. apply allocate_trace in Hrun'.
  destruct (loop_trace_monotone _ _ _ _ _ _ _ Hrun Hrun' Hle)
    as (Hrem & more & Hall & Heq).
  split; [done|].
  assert (Hlen : (length alloc <= length alloc')%nat).
  { apply Forall2_length in Hall. rewrite length_take in Hall. lia. }
  split; [done|].
  intros i a Hi.
  destruct (Forall2_lookup_l _ _ _ _ _ Hall Hi) as (a' & Hi' & Hrel).
  exists a'. split; [|done].
  apply lookup_take_Some in Hi'. by destruct Hi'.
Qed.

Lemma allocation_monotone_witness :
  let wl := [mkItem 1 "desk" 100 (Some 1) (Some 0) (Some 2) "t0";
             mkItem 2 "lamp" 50 (Some 1) (Some 0) (Some 1) "t1";
             mkItem 3 "bike" 80 (Some 1) (Some 0) (Some 2) "t2"] in
  120 <= 190 /\
  allocate_to_wishlist 120 wl
    = Ok ([mkAlloc 2 "lamp" 50 50; mkAlloc 1 "desk" 70 100], 0) /\
  allocate_to_wishlist 190 wl
    = Ok ([mkAlloc 2 "lamp" 50 50; mkAlloc 1 "desk" 100 100;
           mkAlloc 3 "bike" 40 80], 0) /\
  (2 <= 3)%nat.
Proof.
  cbn zeta.
  assert (Hle : 120 <= 190) by lia.
  assert (H1 : allocate_to_wishlist 120
            [mkItem 1 "desk" 100 (Some 1) (Some 0) (Some 2) "t0";
             mkItem 2 "lamp" 50 (Some 1) (Some 0) (Some 1) "t1";
             mkItem 3 "bike" 80 (Some 1) (Some 0) (Some 2) "t2"]
          = Ok ([mkAlloc 2 "lamp" 50 50; mkAlloc 1 "desk" 70 100], 0))
    by (vm_compute; reflexivity).
  assert (H2 : allocate_to_wishlist 190
            [mkItem 1 "desk" 100 (Some 1) (Some 0) (Some 2) "t0";
             mkItem 2 "lamp" 50 (Some 1) (Some 0) (Some 1) "t1";
             mkItem 3 "bike" 80 (Some 1) (Some 0) (Some 2) "t2"]
          = Ok ([mkAlloc 2 "lamp" 50 50; mkAlloc 1 "desk" 100 100;
                 mkAlloc 3 "bike" 40 80], 0))
    by (vm_compute; reflexivity).
  split; [exact Hle|]. split; [exact H1|]. split; [exact H2|].
  exact (proj1 (proj2 (allocation_monotone _ _ _ _ _ _ _ Hle H1 H2))).
Defined.

(** ** Applying when there is nothing to hand out *)

Lemma id_to_assigned_foldl_inv (m0 : gmap Z Z) (alloc : list Allocation)
    (k v : Z) :
  foldl (fun m a => <[alloc_id a := assigned a]> m) m0 alloc !! k = Some v ->
  m0 !! k = Some v \/ exists a, a ∈ alloc /\ alloc_id a = k /\ assigned a = v.
Proof.
  revert m0. induction alloc as [|x alloc IH]; intros m0 Hk; cbn in Hk;
    [by left|].
  apply IH in Hk as [Hk|(a & Ha & Hid & Hv)].
  - destruct (decide (alloc_id x = k)) as [Hx|Hx].
    + rewrite <- Hx, lookup_insert_eq in Hk. injection Hk as <-.
      right. exists x. split; [apply elem_of_cons; by left | done].
    + rewrite lookup_insert_ne in Hk by done. by left.
  - right. exists a. split; [apply elem_of_cons; by right | done].
Qed.

Lemma apply_nothing (alloc : list Allocation) (wl : list WishlistItem) :
  Forall (fun a => assigned a <= 0) alloc ->
  map (apply_to_item (id_to_assigned alloc)) wl = wl.
Proof.
  intros Hall. induction wl as [|it wl IH]; [done|]. cbn. rewrite IH. f_equal.
  unfold apply_to_item.
  destruct (id_to_assigned alloc !! id it) as [v|] eqn:Hv; cbn; [|done].
  apply id_to_assigned_foldl_inv in Hv as [Hv|(a & Ha & _ & <-)].
  - by rewrite lookup_empty in Hv.
  - rewrite Forall_forall in Hall. specialize (Hall a Ha).
    by rewrite (proj2 (Z.ltb_ge 0 (assigned a)) Hall).
Qed.

(** X20. What the apply button does at the edges.  On an empty wishlist the
    page run leaves the state as it is and logs nothing.  On a wishlist with
    items the button always logs one [monthly_alloc] entry holding a
    non-empty allocation; when the usable cash is 0 that entry is logged
    although no [current] changes: the wishlist after the click is the
    wishlist before it. *)
Theorem apply_page_edges (now : string) (data data' : AppState) :
  apply_page true now data = Ok data' ->
  (wishlist data = [] -> data' = data) /\
  (wishlist data <> [] ->
   exists alloc remaining,
     preview data = Ok (alloc, remaining) /\ alloc <> [] /\
     transactions data'
       = transactions data ++ [monthly_alloc now alloc] /\
     (calculate_usable (profile data) = 0 ->
      wishlist data' = wishlist data)).
Proof.
  unfold apply_page. intros Hpage.
  destruct (preview data) as [[alloc rem]|e] eqn:Hprev; [|discriminate].
  cbn in Hpage. injection Hpage as <-.
  pose proof Hprev as Hrun. unfold preview in Hrun. cbn zeta in Hrun.
  apply allocate_trace in Hrun.
  pose proof (loop_trace_nil_iff _ _ _ _ Hrun) as [Hnil _].
  rewrite sorted_nil_iff in Hnil.
  split.
  - intros Hwl. apply Hnil in Hwl. by subst alloc.
  - intros Hwl. exists alloc, rem. split; [done|].
    assert (Hne : alloc <> []) by (intros H; by apply Hwl, Hnil).
    split; [done|].
    assert (Hsame : calculate_usable (profile data) = 0 ->
                    map (apply_to_item (id_to_assigned alloc)) (wishlist data)
                    = wishlist data).
    { intros Hzero. apply apply_nothing.
      assert (Hb : Forall (fun a => 0 <= assigned a <= need a) alloc).
      { eapply loop_trace_bounds; [exact Hrun | lia]. }
      pose proof (preview_sum _ _ _ Hprev) as Hsum.
      assert (Hrem : 0 <= rem).
      { eapply budget_trace_nonneg; [by eapply loop_trace_budget | lia]. }
      assert (Hnn : Forall (fun z => 0 <= z) (map assigned alloc)).
      { apply Forall_fmap. eapply Forall_impl; [exact Hb|].
        cbn. intros a Hab. lia. }
      pose proof (sum_Z_nonneg _ Hnn) as H0.
      assert (Hz : Forall (fun z => z = 0) (map assigned alloc)).
      { apply sum_Z_zero; [done | lia | done]. }
      apply Forall_fmap in Hz. eapply Forall_impl; [exact Hz|].
      cbn. intros a Haz. lia. }
    destruct alloc as [|a0 rest]; [done|].
    cbn. by split.
Qed.

Lemma apply_page_edges_witness :
  let data := mkState (mkProfile 900 300 550 60)
                [mkItem 1 "desk" 100 (Some 1) (Some 5) (Some 2) "t0"] [] in
  apply_page true "m1" data
    = Ok (mkState (mkProfile 900 300 550 60)
            [mkItem 1 "desk" 100 (Some 1) (Some 5) (Some 2) "t0"]
            [monthly_alloc "m1" [mkAlloc 1 "desk" 0 95]]) /\
  wishlist data <> [] /\ calculate_usable (profile data) = 0 /\
  wishlist (mkState (mkProfile 900 300 550 60)
              [mkItem 1 "desk" 100 (Some 1) (Some 5) (Some 2) "t0"]
              [monthly_alloc "m1" [mkAlloc 1 "desk" 0 95]])
    = wishlist data.
Proof.
  cbn zeta.
  assert (Hpage : apply_page true "m1"
            (mkState (mkProfile 900 300 550 60)
               [mkItem 1 "desk" 100 (Some 1) (Some 5) (Some 2) "t0"] [])
          = Ok (mkState (mkProfile 900 300 550 60)
                  [mkItem 1 "desk" 100 (Some 1) (Some 5) (Some 2) "t0"]
                  [monthly_alloc "m1" [mkAlloc 1 "desk" 0 95]]))
    by (vm_compute; reflexivity).
  assert (Hne : wishlist (mkState (mkProfile 900 300 550 60)
               [mkItem 1 "desk" 100 (Some 1) (Some 5) (Some 2) "t0"] [])
                <> []) by (cbn; discriminate).
  assert (Hz : calculate_usable (profile (mkState (mkProfile 900 300 550 60)
               [mkItem 1 "desk" 100 (Some 1) (Some 5) (Some 2) "t0"] []))
               = 0) by (vm_compute; reflexivity).
  split; [exact Hpage|]. split; [exact Hne|]. split; [exact Hz|].
  destruct (proj2 (apply_page_edges _ _ _ Hpage) Hne)
    as (alloc & rem & _ & _ & _ & Hsame).
  exact (Hsame Hz).
Defined.
